(** * Kara-felhun: the watermelon auto tapper (src/kara-felhun.py)

    A shallow embedding of the [AutoTapper] class and of [main], and the
    properties of the tap planner and of the dispatch loop.

    Python integers are [Z]; Python floats are the kernel's binary64 floats,
    so that [int(radius * 0.7)] rounds here as it does in CPython; the mutable
    object [self] is a record threaded through a state-and-exception monad
    together with the process state (what was printed, how often each external
    facility was called).  Everything outside the program (the adb bridge, the
    clock, the random module, libm, the SIGINT of the user) is read from a
    [World]. *)

From Stdlib Require Import ZArith Lia Bool Ascii String.
From Stdlib Require Import Floats.PrimFloat Floats.FloatOps Floats.SpecFloat.
From stdpp Require Import list strings pretty.
Set Warnings "-inexact-float".
Open Scope Z_scope.

(** ** Python floats *)

Module PyFloat.

(** [float(n)] for a Python integer: the nearest binary64 value.  (CPython
    raises OverflowError beyond the binary64 range, about 1.8e308; here the
    conversion saturates to infinity.) *)
Definition of_int (z : Z) : float :=
  SF2Prim (binary_normalize prec emax z 0 false).

(** The exact value [m * 2^e] of a float that results from an exact
    operation. *)
Definition of_scaled (m e : Z) : float :=
  SF2Prim (binary_normalize prec emax m e false).

(** [int(f)]: truncation toward zero.  (CPython raises on NaN and on the
    infinities; those map to 0 here.) *)
Definition to_int (f : float) : Z :=
  match Prim2SF f with
  | S754_finite s m e =>
      let mag := if 0 <=? e then Z.shiftl (Z.pos m) e
                 else Z.shiftr (Z.pos m) (- e) in
      if s then - mag else mag
  | _ => 0
  end.

(** [math.floor] kept as a float, as C's [floor]. *)
Definition floor (f : float) : float :=
  match Prim2SF f with
  | S754_finite s m e =>
      if 0 <=? e then f
      else of_int ((if s then Z.neg m else Z.pos m) / 2 ^ (- e))
  | _ => f
  end.

(** C's [fmod]: the exact remainder of the truncated quotient, with the
    sign of the dividend. *)
Definition fmod (a b : float) : float :=
  match Prim2SF a, Prim2SF b with
  | S754_finite sa ma ea, S754_finite _ mb eb =>
      let e := Z.min ea eb in
      let r := Z.rem (Z.pos ma * 2 ^ (ea - e)) (Z.pos mb * 2 ^ (eb - e)) in
      if r =? 0 then (if sa then (-0)%float else 0%float)
      else of_scaled (if sa then - r else r) e
  | S754_finite _ _ _, S754_infinity _ => a
  | S754_zero _, S754_finite _ _ _ => a
  | S754_zero _, S754_infinity _ => a
  | _, _ => nan
  end.

Definition is_zero (f : float) : bool := (f =? 0)%float.
Definition copysign_zero (f : float) : float :=
  if (f <? 0)%float || (1 / f <? 0)%float then (-0)%float else 0%float.

(** [a % b] on floats (CPython's float_rem); the caller excludes [b = 0]. *)
Definition rem (a b : float) : float :=
  let m := fmod a b in
  if is_zero m then copysign_zero b
  else if xorb (b <? 0)%float (m <? 0)%float then (m + b)%float else m.

(** [a // b] on floats (CPython's float_floor_div through _float_div_mod);
    the caller excludes [b = 0]. *)
Definition floordiv (a b : float) : float :=
  let m := fmod a b in
  let d := ((a - m) / b)%float in
  let d := if is_zero m then d
           else if xorb (b <? 0)%float (m <? 0)%float then (d - 1)%float
                else d in
  if is_zero d then copysign_zero (a / b)%float
  else
    let fd := floor d in
    if (0.5 <? d - fd)%float then (fd + 1)%float else fd.

(** Truth value of a float in a condition: false exactly for zero. *)
Definition truthy (f : float) : bool := negb (is_zero f).

End PyFloat.

(** ** The data *)

(** An entry of [tap_locations]: the tuple [(x, y, interval)]. *)
Definition TapPoint : Type := Z * Z * float.

(** The attributes of an [AutoTapper] object, as [__init__] creates them.
    [x] and [y] are [None] until a coordinate is known. *)
Record AutoTapper : Type := mkAutoTapper {
  x : option Z;
  y : option Z;
  tap_interval : float;
  jitter : Z;
  multi_tap : bool;
  total_taps : option Z;
  running : bool;
  tap_count : Z;
  start_time : option float;
  tap_locations : list TapPoint;
  current_location_index : nat;
  screen_width : Z;
  screen_height : Z
}.

(** The lines the program prints, one constructor per [print] call, with the
    values the f-string interpolates. *)
Inductive Msg : Type :=
| MsgResolutionError
| MsgConnectDeviceFirst
| MsgScreenResolution (width height : Z)
| MsgTappingPosition (px py : option Z)
| MsgMultiLocationPositions (n : nat)
| MsgTapCommandError
| MsgStats (taps : Z) (rate : float) (eta : option (Z * string))
| MsgNoDevicesConnected
| MsgAdbNotFound
| MsgStartingMulti
| MsgUsingLocations (n : nat)
| MsgStartingSingle (px py : option Z)
| MsgTapIntervalIs (d : float)
| MsgTotalTapsNeeded (n : Z)
| MsgPressCtrlC
| MsgGoalReached (n : Z)
| MsgDurationReached (d : Z)
| MsgStopping
| MsgSessionSummary
| MsgTotalTaps (n : Z)
| MsgProgress (percentage : float)
| MsgTimeElapsed (d : float)
| MsgAverageRate (r : float)
| MsgUsingCalibrated (px py : Z)
| MsgUsingDefaultCoordinates.

(** What the process does to the outside, in order: a tap sent through adb
    ([ok] is false when the command fails with CalledProcessError), a call of
    [time.sleep], a printed line. *)
Inductive Event : Type :=
| Tap (px py : Z) (ok : bool)
| Sleep (d : float)
| Print (m : Msg).

(** The exceptions that leave a method. *)
Inductive Exn : Type :=
| ValueError
| TypeError
| IndexError
| SystemExit (code : Z).

(** Everything the program reads from outside.  The [k]-th call of a facility
    gets the [k]-th answer. *)
Record World : Type := mkWorld {
  (** [adb shell wm size], parsed: [None] is CalledProcessError. *)
  wm_size : nat -> option (Z * Z);
  (** The output of [adb devices]: [None] is CalledProcessError. *)
  adb_devices : option string;
  (** [adb shell input tap]: [false] is CalledProcessError. *)
  input_tap : nat -> bool;
  (** [time.time()]. *)
  clock : nat -> float;
  (** The random module: the raw integer behind a bounded draw, and the
      value of [random.random()]. *)
  rand_bits : nat -> Z;
  rand_unit : nat -> float;
  (** [math.cos] and [math.sin]. *)
  libm_cos : float -> float;
  libm_sin : float -> float;
  (** Whether SIGINT arrived before the [k]-th test of the loop condition. *)
  sigint : nat -> bool
}.

(** The state of the process besides the object: how often each facility has
    been called, and what has been emitted. *)
Record Proc : Type := mkProc {
  wm_calls : nat;
  tap_calls : nat;
  clock_reads : nat;
  rand_draws : nat;
  loop_tests : nat;
  trace : list Event
}.

Definition boot : Proc := mkProc 0 0 0 0 0 [].

Record Sys : Type := mkSys { self : AutoTapper; proc : Proc }.

(** ** The monad: state, exceptions, and fuel for the [while] loop *)

Inductive Res (A : Type) : Type :=
| Ok (a : A) (s : Sys)
| Raise (e : Exn) (s : Sys)
| OutOfFuel.
Arguments Ok {A} a s.
Arguments Raise {A} e s.
Arguments OutOfFuel {A}.

Definition M (A : Type) : Type := Sys -> Res A.

Definition ret {A} (a : A) : M A := fun s => Ok a s.

Definition bind {A B} (m : M A) (k : A -> M B) : M B :=
  fun s =>
    match m s with
    | Ok a s' => k a s'
    | Raise e s' => Raise e s'
    | OutOfFuel => OutOfFuel
    end.

Definition raise {A} (e : Exn) : M A := fun s => Raise e s.

(** [try: body finally: final]: [final] runs on every way out of [body], and
    an exception of [body] is raised again after it. *)
Definition finally {A} (body : M A) (final : M unit) : M A :=
  fun s =>
    match body s with
    | Ok a s' => bind final (fun _ => ret a) s'
    | Raise e s' => bind final (fun _ => raise e) s'
    | OutOfFuel => OutOfFuel
    end.

Declare Scope py_scope.
Delimit Scope py_scope with py.
Notation "v <- m ;; k" := (bind m (fun v => k))
  (at level 100, m at next level, right associativity) : py_scope.
Notation "m ;; k" := (bind m (fun _ => k))
  (at level 100, k at level 200, right associativity) : py_scope.
Open Scope py_scope.

Definition get_self : M AutoTapper := fun s => Ok (self s) s.
Definition update (f : AutoTapper -> AutoTapper) : M unit :=
  fun s => Ok tt (mkSys (f (self s)) (proc s)).
Definition update_proc (f : Proc -> Proc) : M unit :=
  fun s => Ok tt (mkSys (self s) (f (proc s))).
Definition when (b : bool) (m : M unit) : M unit := if b then m else ret tt.

(** Assignments to the attributes that the methods write. *)
Definition set_x (v : option Z) (t : AutoTapper) : AutoTapper :=
  mkAutoTapper v (y t) (tap_interval t) (jitter t) (multi_tap t)
    (total_taps t) (running t) (tap_count t) (start_time t) (tap_locations t)
    (current_location_index t) (screen_width t) (screen_height t).
Definition set_y (v : option Z) (t : AutoTapper) : AutoTapper :=
  mkAutoTapper (x t) v (tap_interval t) (jitter t) (multi_tap t)
    (total_taps t) (running t) (tap_count t) (start_time t) (tap_locations t)
    (current_location_index t) (screen_width t) (screen_height t).
Definition set_running (v : bool) (t : AutoTapper) : AutoTapper :=
  mkAutoTapper (x t) (y t) (tap_interval t) (jitter t) (multi_tap t)
    (total_taps t) v (tap_count t) (start_time t) (tap_locations t)
    (current_location_index t) (screen_width t) (screen_height t).
Definition set_tap_count (v : Z) (t : AutoTapper) : AutoTapper :=
  mkAutoTapper (x t) (y t) (tap_interval t) (jitter t) (multi_tap t)
    (total_taps t) (running t) v (start_time t) (tap_locations t)
    (current_location_index t) (screen_width t) (screen_height t).
Definition set_start_time (v : option float) (t : AutoTapper) : AutoTapper :=
  mkAutoTapper (x t) (y t) (tap_interval t) (jitter t) (multi_tap t)
    (total_taps t) (running t) (tap_count t) v (tap_locations t)
    (current_location_index t) (screen_width t) (screen_height t).
Definition set_tap_locations (v : list TapPoint) (t : AutoTapper)
  : AutoTapper :=
  mkAutoTapper (x t) (y t) (tap_interval t) (jitter t) (multi_tap t)
    (total_taps t) (running t) (tap_count t) (start_time t) v
    (current_location_index t) (screen_width t) (screen_height t).
Definition set_current_location_index (v : nat) (t : AutoTapper)
  : AutoTapper :=
  mkAutoTapper (x t) (y t) (tap_interval t) (jitter t) (multi_tap t)
    (total_taps t) (running t) (tap_count t) (start_time t) (tap_locations t)
    v (screen_width t) (screen_height t).
Definition set_screen_size (width height : Z) (t : AutoTapper) : AutoTapper :=
  mkAutoTapper (x t) (y t) (tap_interval t) (jitter t) (multi_tap t)
    (total_taps t) (running t) (tap_count t) (start_time t) (tap_locations t)
    (current_location_index t) width height.

(** [print(...)], [time.sleep(...)]. *)
Definition emit (e : Event) : M unit :=
  update_proc (fun p =>
    mkProc (wm_calls p) (tap_calls p) (clock_reads p) (rand_draws p)
      (loop_tests p) (trace p ++ [e])).
Definition print (m : Msg) : M unit := emit (Print m).

(** [time.sleep(d)] raises ValueError for a negative or NaN length. *)
Definition sleep (d : float) : M unit :=
  if (0 <=? d)%float then emit (Sleep d) else raise ValueError.

(** Truth value of an optional integer in a condition: [None] and 0 are
    false. *)
Definition truthy (v : option Z) : bool :=
  match v with
  | Some n => negb (n =? 0)
  | None => false
  end.

(** ** Library calls *)

Section Program.
Context (w : World).

Definition tick_wm (p : Proc) : Proc :=
  mkProc (S (wm_calls p)) (tap_calls p) (clock_reads p) (rand_draws p)
    (loop_tests p) (trace p).
Definition tick_tap (p : Proc) : Proc :=
  mkProc (wm_calls p) (S (tap_calls p)) (clock_reads p) (rand_draws p)
    (loop_tests p) (trace p).
Definition tick_clock (p : Proc) : Proc :=
  mkProc (wm_calls p) (tap_calls p) (S (clock_reads p)) (rand_draws p)
    (loop_tests p) (trace p).
Definition tick_rand (p : Proc) : Proc :=
  mkProc (wm_calls p) (tap_calls p) (clock_reads p) (S (rand_draws p))
    (loop_tests p) (trace p).
Definition tick_loop (p : Proc) : Proc :=
  mkProc (wm_calls p) (tap_calls p) (clock_reads p) (rand_draws p)
    (S (loop_tests p)) (trace p).

(** [time.time()]. *)
Definition time_time : M float :=
  fun s => Ok (clock w (clock_reads (proc s)))
              (mkSys (self s) (tick_clock (proc s))).

(** The bounded draw behind [randint] and [shuffle]: a value in [0, n). *)
Definition randbelow (n : Z) : M Z :=
  fun s => Ok (rand_bits w (rand_draws (proc s)) mod n)
              (mkSys (self s) (tick_rand (proc s))).

(** [random.randint(a, b)]: ValueError on an empty range. *)
Definition random_randint (a b : Z) : M Z :=
  if a <=? b then r <- randbelow (b - a + 1) ;; ret (a + r)
  else raise ValueError.

(** [random.random()]. *)
Definition random_random : M float :=
  fun s => Ok (rand_unit w (rand_draws (proc s)))
              (mkSys (self s) (tick_rand (proc s))).

(** [random.uniform(a, b)] is [a + (b - a) * random()]. *)
Definition random_uniform (a b : float) : M float :=
  u <- random_random ;; ret (a + (b - a) * u)%float.

(** [l[i], l[j] = l[j], l[i]]. *)
Definition swap {A} (l : list A) (i j : nat) : list A :=
  match l !! i, l !! j with
  | Some a, Some b => <[i:=b]> (<[j:=a]> l)
  | _, _ => l
  end.

(** The loop of [random.shuffle]: for [i] from [len - 1] down to 1, swap
    position [i] with a position drawn from [0, i]. *)
Fixpoint shuffle_from {A} (i : nat) (l : list A) : M (list A) :=
  match i with
  | O => ret l
  | S i' =>
      j <- randbelow (Z.of_nat i + 1) ;;
      shuffle_from i' (swap l i (Z.to_nat j))
  end.

Definition random_shuffle {A} (l : list A) : M (list A) :=
  shuffle_from (length l - 1) l.

Definition math_pi : float := 3.141592653589793%float.

(** [math.radians(angle)]. *)
Definition math_radians (angle : Z) : float :=
  (PyFloat.of_int angle * (math_pi / 180))%float.

(** [range(start, stop, step)] for a positive step. *)
Definition py_range (start stop step : Z) : list Z :=
  map (fun k => start + step * Z.of_nat k)
      (seq 0 (Z.to_nat ((stop - start + step - 1) / step))).

(** [pat in s] and [s.count(c)] on strings. *)
Fixpoint str_in (pat s : string) : bool :=
  String.prefix pat s
  || match s with
     | EmptyString => false
     | String _ s' => str_in pat s'
     end.

Fixpoint str_count (c : ascii) (s : string) : Z :=
  match s with
  | EmptyString => 0
  | String c' s' => (if Ascii.eqb c c' then 1 else 0) + str_count c s'
  end.

Definition newline : ascii := "010"%char.

(** The three adb commands. *)
Definition adb_shell_wm_size : M (option (Z * Z)) :=
  fun s => Ok (wm_size w (wm_calls (proc s)))
              (mkSys (self s) (tick_wm (proc s))).

Definition adb_shell_input_tap (px py : Z) : M bool :=
  fun s =>
    let ok := input_tap w (tap_calls (proc s)) in
    bind (emit (Tap px py ok)) (fun _ => ret ok)
         (mkSys (self s) (tick_tap (proc s))).

(** ** The methods of [AutoTapper] *)

(** [add_jitter]: the draw is made before the sum, which raises TypeError on
    a coordinate that is still [None]. *)
Definition add_jitter (coord : option Z) : M Z :=
  t <- get_self ;;
  r <- random_randint (- jitter t) (jitter t) ;;
  match coord with
  | Some c => ret (c + r)
  | None => raise TypeError
  end.

(** [generate_tap_locations], lines 112-165: what is appended before the
    shuffle. *)
Definition polar (center_x center_y : Z) (r rad interval : float) : TapPoint :=
  (center_x + PyFloat.to_int (r * libm_cos w rad)%float,
   center_y + PyFloat.to_int (r * libm_sin w rad)%float,
   interval).

Definition ring (center_x center_y : Z) (r : float) (angles : list Z)
    (interval : float) : list TapPoint :=
  map (fun angle => polar center_x center_y r (math_radians angle) interval)
      angles.

Definition center_point (center_x center_y : Z) : list TapPoint :=
  [(center_x, center_y, 0.0055%float)].

Definition inner_ring (center_x center_y radius : Z) : list TapPoint :=
  ring center_x center_y (PyFloat.of_int radius * 0.4)%float
       (py_range 0 360 45) 0.006%float.

Definition middle_ring (center_x center_y radius : Z) : list TapPoint :=
  ring center_x center_y (PyFloat.of_int radius * 0.7)%float
       (py_range 0 360 30) 0.007%float.

Definition outer_ring (center_x center_y radius : Z) : list TapPoint :=
  ring center_x center_y (PyFloat.of_int radius)
       (py_range 0 360 22) 0.008%float.

Definition strategic_points (center_x center_y radius : Z) : list TapPoint :=
  ring center_x center_y (PyFloat.of_int radius * 0.85)%float
       [0; 90; 180; 270] 0.0065%float.

Definition random_point (center_x center_y radius : Z) : M TapPoint :=
  u <- random_random ;;
  let random_radius := (PyFloat.of_int radius * (0.1 + 0.8 * u))%float in
  random_angle <- random_uniform 0 (2 * math_pi)%float ;;
  ret (polar center_x center_y random_radius random_angle 0.007%float).

Fixpoint random_points (n : nat) (center_x center_y radius : Z)
    : M (list TapPoint) :=
  match n with
  | O => ret []
  | S n' =>
      p <- random_point center_x center_y radius ;;
      l <- random_points n' center_x center_y radius ;;
      ret (p :: l)
  end.

Definition build_locations : M (list TapPoint) :=
  t <- get_self ;;
  let center_x := screen_width t / 2 in
  let center_y := PyFloat.to_int (PyFloat.of_int (screen_height t) * 0.6) in
  let radius := PyFloat.to_int (PyFloat.of_int (screen_height t) * 0.20) in
  infill <- random_points 4 center_x center_y radius ;;
  ret (center_point center_x center_y
       ++ inner_ring center_x center_y radius
       ++ middle_ring center_x center_y radius
       ++ outer_ring center_x center_y radius
       ++ strategic_points center_x center_y radius
       ++ infill).

Definition generate_tap_locations : M unit :=
  l <- build_locations ;;
  l' <- random_shuffle l ;;
  update (set_tap_locations l').

(** The list that [get_screen_resolution] writes over the generated one
    (lines 81-91). *)
Definition cross_layout (base_x base_y radius : Z) : list TapPoint :=
  let d := PyFloat.to_int (PyFloat.of_int radius * 0.7) in
  [ (base_x, base_y, 0.008%float);
    (base_x, base_y - radius, 0.009%float);
    (base_x + radius, base_y, 0.008%float);
    (base_x, base_y + radius, 0.009%float);
    (base_x - radius, base_y, 0.008%float);
    (base_x + d, base_y + d, 0.007%float);
    (base_x + d, base_y - d, 0.007%float);
    (base_x - d, base_y + d, 0.007%float);
    (base_x - d, base_y - d, 0.007%float) ].

(** [v is None]. *)
Definition is_None {A} (v : option A) : bool :=
  match v with
  | None => true
  | Some _ => false
  end.

(** [not l] for a list. *)
Definition is_empty {A} (l : list A) : bool :=
  match l with
  | [] => true
  | _ => false
  end.

Definition get_screen_resolution : M unit :=
  out <- adb_shell_wm_size ;;
  match out with
  | None =>
      print MsgResolutionError ;;
      print MsgConnectDeviceFirst ;;
      raise (SystemExit 1)
  | Some (width, height) =>
      update (set_screen_size width height) ;;
      t <- get_self ;;
      when (is_None (x t)) (update (set_x (Some (width / 2)))) ;;
      t <- get_self ;;
      when (is_None (y t)) (update (set_y (Some (height / 2)))) ;;
      t <- get_self ;;
      when (multi_tap t) generate_tap_locations ;;
      t <- get_self ;;
      match x t, y t with
      | Some base_x, Some base_y =>
          when (multi_tap t && negb (is_empty (tap_locations t)))
            (let radius :=
               PyFloat.to_int (PyFloat.of_int (screen_height t) * 0.20) in
             update (set_tap_locations (cross_layout base_x base_y radius)))
      | _, _ => ret tt
      end ;;
      print (MsgScreenResolution width height) ;;
      t <- get_self ;;
      if negb (multi_tap t) then print (MsgTappingPosition (x t) (y t))
      else print (MsgMultiLocationPositions (length (tap_locations t)))
  end.

Definition get_next_tap_location : M (option Z * option Z * float) :=
  t <- get_self ;;
  if negb (multi_tap t) || is_empty (tap_locations t)
  then ret (x t, y t, tap_interval t)
  else
    match tap_locations t !! current_location_index t with
    | None => raise IndexError
    | Some location =>
        update (set_current_location_index
                  ((current_location_index t + 1)
                     `mod` length (tap_locations t))%nat) ;;
        ret (Some location.1.1, Some location.1.2, location.2)
    end.

(** The text between "Est. completion:" and the clock time of
    [display_stats] (lines 223-234). *)
Definition format_time_remaining (seconds_remaining : float) : string :=
  if (86400 <? seconds_remaining)%float then
    let days := PyFloat.floordiv seconds_remaining 86400 in
    let hours :=
      PyFloat.floordiv (PyFloat.rem seconds_remaining 86400) 3600 in
    pretty (PyFloat.to_int days) +:+ "d "
      +:+ pretty (PyFloat.to_int hours) +:+ "h"
  else if (3600 <? seconds_remaining)%float then
    let hours := PyFloat.floordiv seconds_remaining 3600 in
    let minutes :=
      PyFloat.floordiv (PyFloat.rem seconds_remaining 3600) 60 in
    pretty (PyFloat.to_int hours) +:+ "h "
      +:+ pretty (PyFloat.to_int minutes) +:+ "m"
  else
    let minutes := PyFloat.floordiv seconds_remaining 60 in
    let seconds := PyFloat.rem seconds_remaining 60 in
    pretty (PyFloat.to_int minutes) +:+ "m "
      +:+ pretty (PyFloat.to_int seconds) +:+ "s".

(** [count / elapsed if elapsed > 0 else 0]. *)
Definition rate (count : Z) (elapsed : float) : float :=
  if (0 <? elapsed)%float then (PyFloat.of_int count / elapsed)%float
  else 0%float.

(** [display_stats]; of the estimate, the line carries the remaining taps
    and the formatted duration (the clock time printed after it is left
    out). *)
Definition display_stats : M unit :=
  now <- time_time ;;
  t <- get_self ;;
  match start_time t with
  | None => raise TypeError
  | Some t0 =>
      let elapsed := (now - t0)%float in
      let taps_per_second := rate (tap_count t) elapsed in
      let eta :=
        match total_taps t with
        | Some total =>
            if truthy (total_taps t) then
              let remaining_taps := Z.max 0 (total - tap_count t) in
              if (0 <? taps_per_second)%float then
                let seconds_remaining :=
                  (PyFloat.of_int remaining_taps / taps_per_second)%float in
                Some (remaining_taps, format_time_remaining seconds_remaining)
              else None
            else None
        | None => None
        end in
      print (MsgStats (tap_count t) taps_per_second eta)
  end.

Definition send_tap : M unit :=
  loc <- get_next_tap_location ;;
  let base_x := loc.1.1 in
  let base_y := loc.1.2 in
  jx <- add_jitter base_x ;;
  jy <- add_jitter base_y ;;
  ok <- adb_shell_input_tap jx jy ;;
  if ok then
    update (fun t => set_tap_count (tap_count t + 1) t) ;;
    t <- get_self ;;
    when (tap_count t mod 200 =? 0) display_stats
  else print MsgTapCommandError.

(** The test of [check_adb_connection] on the output of [adb devices]. *)
Definition no_device_listed (result : string) : bool :=
  negb (str_in "device" result) || (str_count newline result <=? 1).

Definition check_adb_connection : M bool :=
  match adb_devices w with
  | Some result =>
      if no_device_listed result
      then print MsgNoDevicesConnected ;; ret false
      else ret true
  | None => print MsgAdbNotFound ;; ret false
  end.

Definition stop : M unit := update (set_running false).

(** The condition of [while self.running], read after the handler that
    [main] installs for SIGINT (it calls [stop]) has run for a signal that
    arrived since the previous test. *)
Definition loop_test : M bool :=
  fun s =>
    let k := loop_tests (proc s) in
    bind (when (sigint w k) stop) (fun _ => t <- get_self ;; ret (running t))
         (mkSys (self s) (tick_loop (proc s))).

(** The way the loop of [start] is left. *)
Inductive LoopExit : Type :=
| GoalBreak
| DurationBreak
| RunningFalse.

(** [self.total_taps and self.tap_count >= self.total_taps]. *)
Definition goal_reached (t : AutoTapper) : bool :=
  truthy (total_taps t) && (default 0 (total_taps t) <=? tap_count t).

(** One pass through the body of the loop (lines 283-303): [Some] is a
    [break]. *)
Definition loop_body (end_time : option float) (duration : option Z)
    : M (option LoopExit) :=
  t <- get_self ;;
  current_interval <-
    (if multi_tap t
     then loc <- get_next_tap_location ;; ret loc.2
     else ret (tap_interval t)) ;;
  send_tap ;;
  sleep current_interval ;;
  t <- get_self ;;
  if goal_reached t
  then print (MsgGoalReached (default 0 (total_taps t))) ;;
       ret (Some GoalBreak)
  else
    match end_time with
    | Some e =>
        if PyFloat.truthy e then
          now <- time_time ;;
          if (e <=? now)%float
          then print (MsgDurationReached (default 0 duration)) ;;
               ret (Some DurationBreak)
          else ret None
        else ret None
    | None => ret None
    end.

(** [while self.running: ...], with fuel for the passes. *)
Fixpoint while_running (fuel : nat) (end_time : option float)
    (duration : option Z) : M LoopExit :=
  match fuel with
  | O => fun _ => OutOfFuel
  | S fuel' =>
      go <- loop_test ;;
      if go then
        b <- loop_body end_time duration ;;
        match b with
        | Some e => ret e
        | None => while_running fuel' end_time duration
        end
      else ret RunningFalse
  end.

(** [a / b] on integers, as a float (exact conversion below 2^53). *)
Definition truediv (a b : Z) : float :=
  (PyFloat.of_int a / PyFloat.of_int b)%float.

(** The [finally] block of [start]. *)
Definition session_summary : M unit :=
  now <- time_time ;;
  t <- get_self ;;
  match start_time t with
  | None => raise TypeError
  | Some t0 =>
      let elapsed := (now - t0)%float in
      let taps_per_second := rate (tap_count t) elapsed in
      print MsgStopping ;;
      print MsgSessionSummary ;;
      print (MsgTotalTaps (tap_count t)) ;;
      when (truthy (total_taps t))
        (let completion_percentage :=
           (truediv (tap_count t) (default 0%Z (total_taps t)) * 100)%float in
         print (MsgProgress completion_percentage)) ;;
      print (MsgTimeElapsed elapsed) ;;
      print (MsgAverageRate taps_per_second)
  end.

(** [start].  (With the handler of [main] in place SIGINT does not raise
    KeyboardInterrupt, so the [except] clause has nothing to catch.) *)
Definition start (fuel : nat) (duration : option Z) : M unit :=
  connected <- check_adb_connection ;;
  if negb connected then ret tt
  else
    update (set_running true) ;;
    update (set_tap_count 0) ;;
    t0 <- time_time ;;
    update (set_start_time (Some t0)) ;;
    end_time <-
      match duration with
      | None => ret None
      | Some d => now <- time_time ;; ret (Some (now + PyFloat.of_int d)%float)
      end ;;
    t <- get_self ;;
    (if multi_tap t
     then print MsgStartingMulti ;;
          print (MsgUsingLocations (length (tap_locations t)))
     else print (MsgStartingSingle (x t) (y t)) ;;
          print (MsgTapIntervalIs (tap_interval t))) ;;
    when (truthy (total_taps t))
      (print (MsgTotalTapsNeeded (default 0 (total_taps t)))) ;;
    print MsgPressCtrlC ;;
    finally (while_running fuel end_time duration ;; ret tt) session_summary.

(** [AutoTapper(...)]: the attributes, then the resolution query when a
    coordinate is missing. *)
Definition __init__ (x y : option Z) (tap_interval : float) (jitter : Z)
    (multi_tap : bool) (total_taps : option Z) (p : Proc) : Res unit :=
  when (is_None x || is_None y) get_screen_resolution
    (mkSys (mkAutoTapper x y tap_interval jitter multi_tap total_taps
              false 0 None [] 0 0 0) p).

(** ** [main] *)

(** The parsed command line.  [--karaa] is a [store_true] flag whose default
    is True, so the parser always yields [args_karaa = true]. *)
Record Args : Type := mkArgs {
  args_x : option Z;
  args_y : option Z;
  args_interval : float;
  args_jitter : Z;
  args_duration : option Z;
  args_total_taps : option Z;
  args_single_point : bool;
  args_karaa : bool
}.

(** The coordinates that [main] passes to the constructor (lines 338-361),
    with the process state after its own resolution query. *)
Definition calibrate (args : Args) (p : Proc)
    : option Z * option Z * Proc :=
  if args_karaa args && negb (truthy (args_x args))
     && negb (truthy (args_y args))
  then
    match wm_size w (wm_calls p) with
    | Some (width, height) =>
        let x_coord := width / 2 in
        let y_coord := PyFloat.to_int (PyFloat.of_int height * 0.6) in
        (Some x_coord, Some y_coord,
         mkProc (S (wm_calls p)) (tap_calls p) (clock_reads p) (rand_draws p)
           (loop_tests p)
           (trace p ++ [Print (MsgUsingCalibrated x_coord y_coord)]))
    | None =>
        (args_x args, args_y args,
         mkProc (S (wm_calls p)) (tap_calls p) (clock_reads p) (rand_draws p)
           (loop_tests p)
           (trace p ++ [Print MsgResolutionError;
                        Print MsgUsingDefaultCoordinates]))
    end
  else (args_x args, args_y args, p).

Definition main (fuel : nat) (args : Args) : Res unit :=
  let '(x_coord, y_coord, p) := calibrate args boot in
  match __init__ x_coord y_coord (args_interval args) (args_jitter args)
          (negb (args_single_point args)) (args_total_taps args) p with
  | Ok _ s => start fuel (args_duration args) s
  | r => r
  end.

End Program.

(** The exit status of the process: 0 when [main] returns, the code of
    [sys.exit], 1 for an uncaught exception; none while the loop still runs. *)
Definition exit_status (r : Res unit) : option Z :=
  match r with
  | Ok _ _ => Some 0
  | Raise (SystemExit code) _ => Some code
  | Raise _ _ => Some 1
  | OutOfFuel => None
  end.

Definition final_state {A} (r : Res A) : option Sys :=
  match r with
  | Ok _ s => Some s
  | Raise _ s => Some s
  | OutOfFuel => None
  end.

(** ** A concrete world, to run the program on

    A 1080x1920 device that is attached and accepts every tap, a clock that
    advances by 10 ms per reading, and truncated power series for the cosine
    and the sine.  The theorems below hold in every world; this one serves
    the examples. *)

Fixpoint series (n : nat) (k term acc a2 : float) : float :=
  match n with
  | O => acc
  | S n' =>
      let term' := (- term * a2 / ((k + 1) * (k + 2)))%float in
      series n' (k + 2)%float term' (acc + term')%float a2
  end.

Definition series_cos (a : float) : float :=
  let b := if (a <=? 3.141592653589793)%float then a
           else (a - 2 * 3.141592653589793)%float in
  series 14 0 1 1 (b * b).

Definition series_sin (a : float) : float :=
  let b := if (a <=? 3.141592653589793)%float then a
           else (a - 2 * 3.141592653589793)%float in
  series 14 1 b b (b * b).

Definition devices_output (serials : list string) : string :=
  "List of devices attached" +:+ String newline ""
  +:+ foldr (fun serial rest =>
               serial +:+ String "009"%char "device" +:+ String newline rest)
            "" serials
  +:+ String newline "".

Definition demo_world : World :=
  {| wm_size := fun _ => Some (1080, 1920);
     adb_devices := Some (devices_output ["emulator-5554"]);
     input_tap := fun _ => true;
     clock := fun k => (1700000000 + PyFloat.of_int (Z.of_nat k) / 100)%float;
     rand_bits := fun k => 7919 * Z.of_nat k + 13;
     rand_unit := fun k => (PyFloat.of_int (Z.of_nat k * 37 mod 100) / 100)%float;
     libm_cos := series_cos;
     libm_sin := series_sin;
     sigint := fun _ => false |}.

(** The same device with a bridge that is absent, and with one that answers
    with the header line only. *)
Definition world_with_devices (out : option string) (w : World) : World :=
  mkWorld (wm_size w) out (input_tap w) (clock w) (rand_bits w) (rand_unit w)
    (libm_cos w) (libm_sin w) (sigint w).

(** The same device when every second tap fails. *)
Definition world_with_taps (ok : nat -> bool) (w : World) : World :=
  mkWorld (wm_size w) (adb_devices w) ok (clock w) (rand_bits w) (rand_unit w)
    (libm_cos w) (libm_sin w) (sigint w).

Definition default_args : Args :=
  mkArgs None None 0.008%float 8 None None false true.

(** The command lines [--x 500 --jitter 0 --total-taps 1] and
    [--total-taps n], and the object of the default command line when the
    loop starts. *)
Definition pinned_x_args : Args :=
  mkArgs (Some 500) None 0.008%float 0 None (Some 1) false true.

Definition goal_args (n : Z) : Args :=
  mkArgs None None 0.008%float 8 None (Some n) false true.

Definition calibrated_tapper : Sys :=
  mkSys (mkAutoTapper (Some 540) (Some 1152) 0.008%float 8 true None
           true 0 (Some 1700000000%float) [] 0 0 0)
        boot.

(** ** Vocabulary of the statements *)

(** The taps and the pauses of a trace, without the printed lines. *)
Definition dispatch_events (evs : list Event) : list Event :=
  List.filter (fun e => match e with Print _ => false | _ => true end) evs.


(** [wp m Q E s]: run from [s], [m] returns a value and a state in [Q], or
    raises an exception with a state in [E]; it does not run out of fuel. *)
Definition wp {A} (m : M A) (Q : A -> Sys -> Prop) (E : Exn -> Sys -> Prop)
    (s : Sys) : Prop :=
  match m s with
  | Ok a s' => Q a s'
  | Raise e s' => E e s'
  | OutOfFuel => False
  end.

(** The attributes that only the constructor writes, and those that the
    dispatch of a tap leaves alone. *)
Definition config (t : AutoTapper)
    : option Z * option Z * float * Z * bool * option Z * list TapPoint :=
  (x t, y t, tap_interval t, jitter t, multi_tap t, total_taps t,
   tap_locations t).

Definition frame (t : AutoTapper)
    : (option Z * option Z * float * Z * bool * option Z * list TapPoint)
      * bool * option float * Z * Z :=
  (config t, running t, start_time t, screen_width t, screen_height t).

(** The cursor after one call of [get_next_tap_location]. *)
Definition advance (t : AutoTapper) : nat :=
  if negb (multi_tap t) || is_empty (tap_locations t)
  then current_location_index t
  else ((current_location_index t + 1) `mod` length (tap_locations t))%nat.

(** The point that [get_next_tap_location] returns. *)
Definition selected (t : AutoTapper) : option (option Z * option Z * float) :=
  if negb (multi_tap t) || is_empty (tap_locations t)
  then Some (x t, y t, tap_interval t)
  else
    match tap_locations t !! current_location_index t with
    | Some p => Some (Some p.1.1, Some p.1.2, p.2)
    | None => None
    end.

(** The counters and the output that the clock and the random module do not
    touch. *)
Definition visible (p : Proc) : nat * nat * nat * list Event :=
  (wm_calls p, tap_calls p, loop_tests p, trace p).

(** Taps in a trace: the attempts, and those that the device accepted. *)
Definition is_tap (e : Event) : bool :=
  match e with
  | Tap _ _ _ => true
  | _ => false
  end.

Definition no_tap (evs : list Event) : Prop :=
  Forall (fun e => is_tap e = false) evs.

Definition accepted (e : Event) : Z :=
  match e with
  | Tap _ _ true => 1
  | _ => 0
  end.

Fixpoint accepted_taps (evs : list Event) : Z :=
  match evs with
  | [] => 0
  | e :: evs' => accepted e + accepted_taps evs'
  end.

(** What one dispatch changes, whether it returns or raises: the cursor, the
    calls of the clock and of the random module, and either nothing else (no
    tap was sent) or one tap followed by other events, counted if and only
    if the device accepted it. *)
Definition tap_effect (w : World) (s s' : Sys) : Prop :=
  frame (self s') = frame (self s)
  /\ wm_calls (proc s') = wm_calls (proc s)
  /\ loop_tests (proc s') = loop_tests (proc s)
  /\ (trace (proc s') = trace (proc s)
      /\ tap_calls (proc s') = tap_calls (proc s)
      /\ tap_count (self s') = tap_count (self s)
      \/ exists jx jy rest,
          trace (proc s')
          = trace (proc s)
              ++ Tap jx jy (input_tap w (tap_calls (proc s))) :: rest
          /\ no_tap rest
          /\ tap_calls (proc s') = S (tap_calls (proc s))
          /\ tap_count (self s')
             = tap_count (self s)
               + Z.b2z (input_tap w (tap_calls (proc s)))).

(** Every tap of [evs] is sent while fewer than [g] taps have been counted,
    [c] being the count before [evs]. *)
Definition within_goal (g c : Z) (evs : list Event) : Prop :=
  forall pre px py ok post,
    evs = pre ++ Tap px py ok :: post -> c + accepted_taps pre < g.

(** What a run of the loop changes when the goal is [g]: the events [evs]
    are appended, the counter grows by the accepted taps among them and does
    not pass the goal, and no tap is sent once the goal is reached. *)
Definition run_effect (g : Z) (s s' : Sys) : Prop :=
  config (self s') = config (self s)
  /\ start_time (self s') = start_time (self s)
  /\ exists evs,
      trace (proc s') = trace (proc s) ++ evs
      /\ tap_count (self s') = tap_count (self s) + accepted_taps evs
      /\ within_goal g (tap_count (self s)) evs
      /\ tap_count (self s') <= g.

(** What the test of the loop condition and the reading of the clock leave
    alone. *)
Definition same_run (s s' : Sys) : Prop :=
  config (self s') = config (self s)
  /\ start_time (self s') = start_time (self s)
  /\ tap_count (self s') = tap_count (self s)
  /\ current_location_index (self s') = current_location_index (self s)
  /\ visible (proc s') = (wm_calls (proc s), tap_calls (proc s),
                          S (loop_tests (proc s)), trace (proc s)).


(** The object that the constructor leaves when it has asked the device for
    its resolution. *)
Definition constructed (x0 y0 : option Z) (interval : float) (j : Z)
    (multi : bool) (total : option Z) (width height : Z) : AutoTapper :=
  let base_x := default (width / 2) x0 in
  let base_y := default (height / 2) y0 in
  mkAutoTapper (Some base_x) (Some base_y) interval j multi total false 0 None
    (if multi
     then cross_layout base_x base_y
            (PyFloat.to_int (PyFloat.of_int height * 0.20))
     else [])
    0 width height.

(** [n] calls of [get_next_tap_location], and [n] passes through the body
    of the loop, one after the other. *)
Fixpoint dispatches (n : nat) : M unit :=
  match n with
  | O => ret tt
  | S n' => get_next_tap_location ;; dispatches n'
  end.

Fixpoint cycles (w : World) (n : nat) (end_time : option float)
    (duration : option Z) : M unit :=
  match n with
  | O => ret tt
  | S n' => loop_body w end_time duration ;; cycles w n' end_time duration
  end.

(** A printed line that is not one of the summary: neither a tap, nor a
    pause, nor a line of the [finally] block of [start]. *)
Definition is_notice (e : Event) : bool :=
  match e with
  | Print MsgStopping | Print MsgSessionSummary | Print (MsgTotalTaps _)
  | Print (MsgProgress _) | Print (MsgTimeElapsed _)
  | Print (MsgAverageRate _) => false
  | Print _ => true
  | _ => false
  end.

(** The text of the estimate for a whole number of seconds, in the words of
    the specification: integer floor division and remainder. *)
Definition eta_text (n : Z) : string :=
  if 86400 <? n then
    pretty (n / 86400) +:+ "d " +:+ pretty (n mod 86400 / 3600) +:+ "h"
  else if 3600 <? n then
    pretty (n / 3600) +:+ "h " +:+ pretty (n mod 3600 / 60) +:+ "m"
  else pretty (n / 60) +:+ "m " +:+ pretty (n mod 60) +:+ "s".

(** The answer of [check_adb_connection]. *)
Definition connected (w : World) : bool :=
  match adb_devices w with
  | Some result => negb (no_device_listed result)
  | None => false
  end.


(** The same for a computation with a loop: nothing is claimed of a run that
    is cut by the fuel. *)
Definition wlp {A} (m : M A) (Q : A -> Sys -> Prop) (E : Exn -> Sys -> Prop)
    (s : Sys) : Prop :=
  match m s with
  | Ok a s' => Q a s'
  | Raise e s' => E e s'
  | OutOfFuel => True
  end.

(** ** Vocabulary of the properties of a run *)

(** The lines that [start] prints before it enters the loop (lines
    269-279). *)
Definition banner (t : AutoTapper) : list Event :=
  (if multi_tap t
   then [Print MsgStartingMulti;
         Print (MsgUsingLocations (length (tap_locations t)))]
   else [Print (MsgStartingSingle (x t) (y t));
         Print (MsgTapIntervalIs (tap_interval t))])
  ++ (if truthy (total_taps t)
      then [Print (MsgTotalTapsNeeded (default 0 (total_taps t)))]
      else [])
  ++ [Print MsgPressCtrlC].

(** [end_time] of [start] (line 267), for a process that has read the clock
    [k] times before the call. *)
Definition deadline (w : World) (duration : option Z) (k : nat)
    : option float :=
  match duration with
  | None => None
  | Some d => Some (clock w (S k) + PyFloat.of_int d)%float
  end.

(** The state in which [start] enters its loop when a device is attached. *)
Definition started (w : World) (duration : option Z) (s : Sys) : Sys :=
  mkSys
    (set_start_time (Some (clock w (clock_reads (proc s))))
       (set_tap_count 0 (set_running true (self s))))
    (mkProc (wm_calls (proc s)) (tap_calls (proc s))
       (match duration with
        | None => S (clock_reads (proc s))
        | Some _ => S (S (clock_reads (proc s)))
        end)
       (rand_draws (proc s)) (loop_tests (proc s))
       (trace (proc s) ++ banner (self s))).

(** The lines of the [finally] block of [start] (lines 311-318) for the
    object [t], [elapsed] seconds after the start. *)
Definition summary_lines (t : AutoTapper) (elapsed : float) : list Event :=
  [Print MsgStopping; Print MsgSessionSummary; Print (MsgTotalTaps (tap_count t))]
  ++ (if truthy (total_taps t)
      then [Print (MsgProgress
                     (truediv (tap_count t) (default 0%Z (total_taps t))
                      * 100)%float)]
      else [])
  ++ [Print (MsgTimeElapsed elapsed);
      Print (MsgAverageRate (rate (tap_count t) elapsed))].

(** The state after the [finally] block of [start], for a run that began at
    the time [t0]. *)
Definition summarized (w : World) (t0 : float) (s : Sys) : Sys :=
  mkSys (self s)
    (mkProc (wm_calls (proc s)) (tap_calls (proc s))
       (S (clock_reads (proc s))) (rand_draws (proc s)) (loop_tests (proc s))
       (trace (proc s)
          ++ summary_lines (self s)
               (clock w (clock_reads (proc s)) - t0)%float)).

(** The tap commands of a trace, accepted or not. *)
Fixpoint attempts (evs : list Event) : nat :=
  match evs with
  | [] => 0
  | Tap _ _ _ :: evs' => S (attempts evs')
  | _ :: evs' => attempts evs'
  end.

(** The rhythm of a trace: a tap command is sent only when the previous one
    has been followed by a pause, and a pause is made only after a tap
    command.  [pace after_tap evs] is [None] when [evs] breaks the rhythm,
    and otherwise tells whether [evs] ends with a tap command that no pause
    has followed yet. *)
Fixpoint pace (after_tap : bool) (evs : list Event) : option bool :=
  match evs with
  | [] => Some after_tap
  | Tap _ _ _ :: evs' => if after_tap then None else pace true evs'
  | Sleep _ :: evs' => if after_tap then pace false evs' else None
  | Print _ :: evs' => pace after_tap evs'
  end.

(** An object on which neither the lookup in the plan nor the arithmetic on
    the coordinates and on the start time can fail: the coordinates are
    known and the cursor is inside the plan. *)
Definition sound (t : AutoTapper) : Prop :=
  is_Some (x t) /\ is_Some (y t)
  /\ (tap_locations t = []
      \/ (current_location_index t < length (tap_locations t))%nat).

(** The device of a world with another schedule of SIGINT. *)
Definition world_with_sigint (f : nat -> bool) (w : World) : World :=
  mkWorld (wm_size w) (adb_devices w) (input_tap w) (clock w) (rand_bits w)
    (rand_unit w) (libm_cos w) (libm_sin w) f.

(** The device of a world with other answers to [adb shell wm size]. *)
Definition world_with_wm_size (f : nat -> option (Z * Z)) (w : World)
    : World :=
  mkWorld f (adb_devices w) (input_tap w) (clock w) (rand_bits w)
    (rand_unit w) (libm_cos w) (libm_sin w) (sigint w).

(** The pauses of a trace. *)
Fixpoint pauses (evs : list Event) : nat :=
  match evs with
  | [] => 0
  | Sleep _ :: evs' => S (pauses evs')
  | _ :: evs' => pauses evs'
  end.

(** What a run of the loop leaves of the state [s] in which it began, when
    it has emitted [evs]: the configuration and the start time are as they
    were, one tap command was issued for each [Tap] of [evs], and the counter
    grew by the accepted ones. *)
Definition run_shape (s s' : Sys) (evs : list Event) : Prop :=
  config (self s') = config (self s)
  /\ start_time (self s') = start_time (self s)
  /\ trace (proc s') = trace (proc s) ++ evs
  /\ tap_calls (proc s') = (tap_calls (proc s) + attempts evs)%nat
  /\ tap_count (self s') = tap_count (self s) + accepted_taps evs.

(** The object that [main] builds for the command line [--total-taps g] on
    the device of [demo_world], before [start]. *)
Definition goal_tapper (g : Z) : Sys :=
  mkSys (mkAutoTapper (Some 540) (Some 1152) 0.008%float 8 true (Some g)
           false 0 None [] 0 0 0)
        boot.

(** The object [t] with another goal, and a result with its final state
    changed by [f]. *)
Definition with_total_taps (v : option Z) (t : AutoTapper) : AutoTapper :=
  mkAutoTapper (x t) (y t) (tap_interval t) (jitter t) (multi_tap t)
    v (running t) (tap_count t) (start_time t) (tap_locations t)
    (current_location_index t) (screen_width t) (screen_height t).

Definition without_goal (s : Sys) : Sys :=
  mkSys (with_total_taps None (self s)) (proc s).

Definition map_state {A} (f : Sys -> Sys) (r : Res A) : Res A :=
  match r with
  | Ok a s => Ok a (f s)
  | Raise e s => Raise e (f s)
  | OutOfFuel => OutOfFuel
  end.


(** ** The text of the resolution

    The two places that ask the device for its resolution (lines 58-59 and
    351-352) read it from the text that [adb shell wm size] prints:
    [result.strip().split(": ")[1]], then [map(int, resolution.split("x"))]
    unpacked into [width, height].  The worlds above give the resolution
    already read; here is the reading itself, on strings whose characters
    are below 256. *)

(** [c.isspace()]. *)
Definition isspace (c : ascii) : bool :=
  let n := nat_of_ascii c in
  ((9 <=? n) && (n <=? 13) || (28 <=? n) && (n <=? 32)
   || (n =? 133) || (n =? 160))%nat.

(** [s.lstrip()], [s.rstrip()] and [s.strip()]. *)
Fixpoint lstrip (s : string) : string :=
  match s with
  | String c s' => if isspace c then lstrip s' else s
  | EmptyString => EmptyString
  end.

Fixpoint rstrip (s : string) : string :=
  match s with
  | String c s' =>
      match rstrip s' with
      | EmptyString => if isspace c then EmptyString else String c EmptyString
      | r => String c r
      end
  | EmptyString => EmptyString
  end.

Definition strip (s : string) : string := rstrip (lstrip s).

(** [s.split(sep)] for a separator that is not empty: the fields between the
    occurrences of [sep], found from the left and not overlapping.  [skip]
    counts the characters of an occurrence that are still to be passed. *)
Fixpoint split_go (sep : string) (skip : nat) (s : string) : list string :=
  match s with
  | String c s' =>
      match skip with
      | S k => split_go sep k s'
      | O =>
          if String.prefix sep s
          then EmptyString :: split_go sep (String.length sep - 1) s'
          else
            match split_go sep 0 s' with
            | field :: fields => String c field :: fields
            | [] => [String c EmptyString]
            end
      end
  | EmptyString => [EmptyString]
  end.

Definition str_split (sep s : string) : list string := split_go sep 0 s.

(** [int(s)] for a string, in base 10: white space around, an optional sign,
    then digits, with single underscores allowed between digits; [None] is
    ValueError.  (CPython 3.11 and later also refuse, with ValueError, a
    text of more than 4300 digits.) *)
Definition digit_of (c : ascii) : option Z :=
  let n := Z.of_nat (nat_of_ascii c) in
  if (48 <=? n) && (n <=? 57) then Some (n - 48) else None.

Fixpoint digits_value (after_digit : bool) (acc : Z) (s : string)
    : option Z :=
  match s with
  | String c s' =>
      match digit_of c with
      | Some d => digits_value true (10 * acc + d) s'
      | None =>
          if Ascii.eqb c "_" && after_digit
          then digits_value false acc s'
          else None
      end
  | EmptyString => if after_digit then Some acc else None
  end.

Definition py_int (s : string) : option Z :=
  match strip s with
  | String "+" r => digits_value false 0 r
  | String "-" r => option_map Z.opp (digits_value false 0 r)
  | r => digits_value false 0 r
  end.

(** Lines 58-59: the resolution in the answer [result], or the exception
    that the two lines raise: IndexError when the text has no ": ",
    ValueError when what follows is not two integers around an "x". *)
Definition parse_resolution (result : string) : Exn + Z * Z :=
  match str_split ": " (strip result) with
  | _ :: resolution :: _ =>
      match str_split "x" resolution with
      | [a; b] =>
          match py_int a, py_int b with
          | Some width, Some height => inr (width, height)
          | _, _ => inl ValueError
          end
      | _ => inl ValueError
      end
  | _ => inl IndexError
  end.

(** All the characters of a string satisfy [p]. *)
Fixpoint str_all (p : ascii -> bool) (s : string) : bool :=
  match s with
  | String c s' => p c && str_all p s'
  | EmptyString => true
  end.

(** The characters of a decimal numeral. *)
Definition digit_char (c : ascii) : bool :=
  match digit_of c with
  | Some _ => true
  | None => false
  end.

Definition numeral_char (c : ascii) : bool :=
  digit_char c || Ascii.eqb c "-".

(** The text that [adb shell wm size] prints for a screen of [width] by
    [height], and the text it prints when the size has been overridden. *)
Definition wm_size_output (width height : Z) : string :=
  "Physical size: " +:+ pretty width +:+ "x" +:+ pretty height
    +:+ String newline "".

Definition wm_size_output_override (width height width' height' : Z)
    : string :=
  "Physical size: " +:+ pretty width +:+ "x" +:+ pretty height
    +:+ String newline "Override size: "
    +:+ pretty width' +:+ "x" +:+ pretty height' +:+ String newline "".

(** ** Rules for [wp] *)

Lemma wp_bind {A B} (m : M A) (k : A -> M B) Q E s :
  wp m (fun a s' => wp (k a) Q E s') E s -> wp (bind m k) Q E s.
Proof. unfold wp, bind. destruct (m s); auto. Qed.

Lemma wp_conseq {A} (m : M A) (Q Q' : A -> Sys -> Prop)
    (E E' : Exn -> Sys -> Prop) s :
  wp m Q E s ->
  (forall a s', Q a s' -> Q' a s') ->
  (forall e s', E e s' -> E' e s') ->
  wp m Q' E' s.
Proof. unfold wp. destruct (m s); auto. Qed.

Lemma wp_call {A B} (m : M A) (k : A -> M B) P F Q E s :
  wp m P F s ->
  (forall a s', P a s' -> wp (k a) Q E s') ->
  (forall e s', F e s' -> E e s') ->
  wp (bind m k) Q E s.
Proof. intros Hm HP HF. apply wp_bind. eapply wp_conseq; eauto. Qed.

(** Symbolic execution of the straight-line part of a method: unfold the
    monad and the library calls, and split on the innermost condition. *)
Lemma wp_wlp {A} (m : M A) Q E s : wp m Q E s -> wlp m Q E s.
Proof. unfold wp, wlp. destruct (m s); auto. Qed.

Lemma wlp_bind {A B} (m : M A) (k : A -> M B) Q E s :
  wlp m (fun a s' => wlp (k a) Q E s') E s -> wlp (bind m k) Q E s.
Proof. unfold wlp, bind. destruct (m s); auto. Qed.

Lemma wlp_conseq {A} (m : M A) (Q Q' : A -> Sys -> Prop)
    (E E' : Exn -> Sys -> Prop) s :
  wlp m Q E s ->
  (forall a s', Q a s' -> Q' a s') ->
  (forall e s', E e s' -> E' e s') ->
  wlp m Q' E' s.
Proof. unfold wlp. destruct (m s); auto. Qed.

Lemma wlp_call {A B} (m : M A) (k : A -> M B) P F Q E s :
  wlp m P F s ->
  (forall a s', P a s' -> wlp (k a) Q E s') ->
  (forall e s', F e s' -> E e s') ->
  wlp (bind m k) Q E s.
Proof. intros Hm HP HF. apply wlp_bind. eapply wlp_conseq; eauto. Qed.

Lemma wlp_finally {A} (body : M A) (final : M unit) P F Q E s :
  wlp body P F s ->
  (forall a s', P a s' -> wlp final (fun _ s'' => Q a s'') E s') ->
  (forall e s', F e s' -> wlp final (fun _ s'' => E e s'') E s') ->
  wlp (finally body final) Q E s.
Proof.
  unfold wlp, finally, bind, ret, raise. intros Hb HP HF.
  destruct (body s) as [a s'|e s'|]; [| |exact I].
  - specialize (HP a s' Hb). destruct (final s'); auto.
  - specialize (HF e s' Hb). destruct (final s'); auto.
Qed.

Lemma wlp_step {A B} (m : M A) (k : A -> M B) a s' Q E s :
  m s = Ok a s' -> wlp (k a) Q E s' -> wlp (bind m k) Q E s.
Proof. unfold wlp, bind. intros ->. auto. Qed.

Lemma wp_step {A B} (m : M A) (k : A -> M B) a s' Q E s :
  m s = Ok a s' -> wp (k a) Q E s' -> wp (bind m k) Q E s.
Proof. unfold wp, bind. intros ->. auto. Qed.

Lemma wp_assoc {A B C} (m : M A) (k1 : A -> M B) (k2 : B -> M C) Q E s :
  wp (bind m (fun a => bind (k1 a) k2)) Q E s ->
  wp (bind (bind m k1) k2) Q E s.
Proof. unfold wp, bind. destruct (m s); auto. Qed.

Lemma wlp_assoc {A B C} (m : M A) (k1 : A -> M B) (k2 : B -> M C) Q E s :
  wlp (bind m (fun a => bind (k1 a) k2)) Q E s ->
  wlp (bind (bind m k1) k2) Q E s.
Proof. unfold wlp, bind. destruct (m s); auto. Qed.

(** The calls that return at once: they are run by computation. *)
Ltac library_call m :=
  lazymatch m with
  | ret _ => idtac
  | get_self => idtac
  | update _ => idtac
  | update_proc _ => idtac
  | emit _ => idtac
  | print _ => idtac
  | stop => idtac
  | time_time _ => idtac
  | randbelow _ _ => idtac
  | random_random _ => idtac
  | random_uniform _ _ _ => idtac
  | adb_shell_wm_size _ => idtac
  | adb_shell_input_tap _ _ _ => idtac
  end.

Ltac wlp_steps :=
  repeat first
    [ match goal with
      | |- wlp (bind (bind _ _) _) _ _ _ => apply wlp_assoc
      end
    | match goal with
      | |- wlp (bind ?m _) _ _ _ =>
          library_call m; eapply wlp_step; [reflexivity|]; cbv beta
      end ].

Ltac wp_steps :=
  repeat first
    [ match goal with
      | |- wp (bind (bind _ _) _) _ _ _ => apply wp_assoc
      end
    | match goal with
      | |- wp (bind ?m _) _ _ _ =>
          library_call m; eapply wp_step; [reflexivity|]; cbv beta
      end ].

Lemma wp_and {A} (m : M A) (Q1 Q2 : A -> Sys -> Prop)
    (E1 E2 : Exn -> Sys -> Prop) s :
  wp m Q1 E1 s -> wp m Q2 E2 s ->
  wp m (fun a s' => Q1 a s' /\ Q2 a s') (fun e s' => E1 e s' /\ E2 e s') s.
Proof. unfold wp. destruct (m s); auto. Qed.



Ltac wlp_branch :=
  match goal with
  | |- wlp (bind (if ?c then _ else _) _) _ _ _ => destruct c eqn:?
  | |- wlp (bind (match ?c with _ => _ end) _) _ _ _ => destruct c eqn:?
  | |- wlp (bind (when ?c _) _) _ _ _ => unfold when at 1; destruct c eqn:?
  end.

Ltac split_cond :=
  match goal with
  | |- context [match ?c with _ => _ end] =>
      lazymatch c with
      | context [match _ with _ => _ end] => fail
      | _ =>
          lazymatch type of c with
          | Res _ => fail
          | _ => destruct c eqn:?
          end
      end
  end.

Ltac proj_simpl :=
  cbn [self proc x y tap_interval jitter multi_tap total_taps running
       tap_count start_time tap_locations current_location_index
       screen_width screen_height wm_calls tap_calls clock_reads
       rand_draws loop_tests trace
       set_x set_y set_running set_tap_count set_start_time
       set_tap_locations set_current_location_index set_screen_size
       tick_wm tick_tap tick_clock tick_rand tick_loop fst snd
       config frame] in *.

Ltac wp_unfold :=
  cbv [wp bind ret raise get_self update update_proc emit print when sleep
       time_time randbelow random_randint random_random random_uniform
       adb_shell_input_tap adb_shell_wm_size stop].

Ltac wp_exec := wp_unfold; repeat first [progress proj_simpl | split_cond].

Ltac to_prop :=
  repeat match goal with
    | H : (_ <=? _) = true |- _ => apply Z.leb_le in H
    | H : (_ <=? _) = false |- _ => apply Z.leb_gt in H
    | H : (_ =? _) = true |- _ => apply Z.eqb_eq in H
    | H : (_ =? _) = false |- _ => apply Z.eqb_neq in H
    end.

Ltac effect_leaf :=
  rewrite <- ?app_assoc; cbn [app];
  first
    [ left; repeat split; (reflexivity || lia)
    | right; eexists _, _, _; split; [reflexivity|];
      split; [repeat constructor|]; split; [reflexivity | cbn; lia] ].

(** ** The dispatch of one tap *)

Lemma get_next_tap_location_spec s :
  wp get_next_tap_location
     (fun a s' =>
        proc s' = proc s
        /\ frame (self s') = frame (self s)
        /\ tap_count (self s') = tap_count (self s)
        /\ current_location_index (self s') = advance (self s)
        /\ selected (self s) = Some a)
     (fun e s' => s' = s /\ selected (self s) = None)
     s.
Proof.
  unfold get_next_tap_location, advance, selected.
  wp_exec; auto 10.
Qed.

Lemma add_jitter_spec w coord s :
  wp (add_jitter w coord)
     (fun v s' =>
        self s' = self s
        /\ visible (proc s') = visible (proc s)
        /\ rand_draws (proc s') = S (rand_draws (proc s))
        /\ 0 <= jitter (self s)
        /\ exists c,
            coord = Some c
            /\ v = c + (- jitter (self s)
                        + rand_bits w (rand_draws (proc s))
                            mod (jitter (self s) - - jitter (self s) + 1)))
     (fun e s' =>
        self s' = self s
        /\ visible (proc s') = visible (proc s)
        /\ (e = ValueError /\ jitter (self s) < 0
            \/ e = TypeError /\ coord = None))
     s.
Proof.
  unfold add_jitter, visible. wp_exec; to_prop; repeat split; eauto; try lia.
  left. split; [reflexivity | lia].
Qed.

Lemma display_stats_spec w s :
  wp (display_stats w)
     (fun _ s' =>
        self s' = self s
        /\ wm_calls (proc s') = wm_calls (proc s)
        /\ tap_calls (proc s') = tap_calls (proc s)
        /\ loop_tests (proc s') = loop_tests (proc s)
        /\ rand_draws (proc s') = rand_draws (proc s)
        /\ exists m, trace (proc s') = trace (proc s) ++ [Print m])
     (fun e s' =>
        self s' = self s
        /\ visible (proc s') = visible (proc s)
        /\ start_time (self s) = None)
     s.
Proof.
  unfold display_stats, visible. wp_exec; repeat split; eauto.
Qed.

Lemma send_tap_effect w s :
  wp (send_tap w)
     (fun _ s' =>
        tap_effect w s s'
        /\ current_location_index (self s') = advance (self s))
     (fun _ s' => tap_effect w s s')
     s.
Proof.
  destruct s as [[] []].
  unfold send_tap, get_next_tap_location, add_jitter, display_stats.
  unfold tap_effect, advance.
  wp_exec; try (split; [|reflexivity]); repeat split; try reflexivity;
    effect_leaf.
Qed.

Lemma loop_body_effect w end_time duration s :
  wp (loop_body w end_time duration)
     (fun b s' =>
        tap_effect w s s'
        /\ current_location_index (self s')
           = advance (set_current_location_index (advance (self s)) (self s))
        /\ (b = Some GoalBreak <-> goal_reached (self s') = true)
        /\ tap_calls (proc s') = S (tap_calls (proc s)))
     (fun _ s' => tap_effect w s s')
     s.
Proof.
  destruct s as [[] []].
  unfold loop_body, send_tap, get_next_tap_location, add_jitter, display_stats.
  unfold tap_effect, advance.
  wp_exec.
  all: try discriminate.
  all: repeat match goal with
       | |- _ /\ _ => split
       | |- _ <-> _ => split; intros; congruence
       | |- _ = _ => reflexivity
       | |- _ \/ _ => effect_leaf
       end.
Qed.

(** ** The loop *)

Lemma accepted_taps_app evs1 evs2 :
  accepted_taps (evs1 ++ evs2) = accepted_taps evs1 + accepted_taps evs2.
Proof. induction evs1 as [|e evs1 IH]; cbn; lia. Qed.


Lemma accepted_taps_bounds evs : 0 <= accepted_taps evs.
Proof.
  induction evs as [|[px py [|]| |] evs IH]; cbn; lia.
Qed.

Lemma within_goal_nil g c : within_goal g c [].
Proof. intros [|] ? ? ? ? H; discriminate. Qed.



Lemma loop_test_spec w s :
  wp (loop_test w)
     (fun go s' =>
        same_run s s'
        /\ go = running (self s')
        /\ running (self s')
           = (if sigint w (loop_tests (proc s)) then false
              else running (self s)))
     (fun _ _ => False)
     s.
Proof.
  destruct s as [[] []]. unfold loop_test, same_run, visible.
  wp_exec; repeat split; reflexivity.
Qed.

Lemma session_summary_spec w s :
  wp (session_summary w)
     (fun _ s' =>
        self s' = self s
        /\ exists evs,
            trace (proc s') = trace (proc s) ++ evs /\ no_tap evs)
     (fun _ s' => self s' = self s /\ trace (proc s') = trace (proc s))
     s.
Proof.
  destruct s as [[] []]. unfold session_summary.
  wp_exec; (split; [reflexivity|]); try reflexivity;
    rewrite <- ?app_assoc; cbn [app]; eexists; (split; [reflexivity|]);
    repeat constructor.
Qed.


Lemma config_total_taps t t' :
  config t' = config t -> total_taps t' = total_taps t.
Proof. intros H. exact (f_equal (fun c => c.1.2) H). Qed.

Lemma frame_config t t' : frame t' = frame t -> config t' = config t.
Proof. intros H. exact (f_equal (fun c => c.1.1.1.1) H). Qed.

Lemma frame_start_time t t' :
  frame t' = frame t -> start_time t' = start_time t.
Proof. intros H. exact (f_equal (fun c => c.1.1.2) H). Qed.

Lemma run_effect_refl g s : tap_count (self s) <= g -> run_effect g s s.
Proof.
  intros Hc. repeat split. exists []. rewrite app_nil_r. cbn.
  repeat split; [lia | apply within_goal_nil | exact Hc].
Qed.




(** ** [start] *)

Lemma check_adb_connection_spec w s :
  wp (check_adb_connection w)
     (fun c s' =>
        c = connected w
        /\ self s' = self s
        /\ (if c then s' = s
            else exists m,
                trace (proc s') = trace (proc s) ++ [Print m]
                /\ tap_calls (proc s') = tap_calls (proc s)))
     (fun _ _ => False)
     s.
Proof.
  destruct s as [[] []]. unfold check_adb_connection, connected.
  wp_exec; repeat split; eauto.
Qed.


Lemma no_tap_app evs1 evs2 : no_tap evs1 -> no_tap evs2 -> no_tap (evs1 ++ evs2).
Proof. unfold no_tap. intros. apply Forall_app. auto. Qed.




(** ** A run that reaches its goal *)

Lemma lookup_mod_is_Some {A} (l : list A) (i : nat) :
  is_empty l = false -> is_Some (l !! (i `mod` length l)%nat).
Proof.
  intros Hl. apply lookup_lt_is_Some. apply Nat.mod_upper_bound.
  destruct l; [discriminate | cbn; lia].
Qed.

Lemma ready_interval (l : list TapPoint) i px py d :
  Forall (fun p : TapPoint => (0 <=? p.2)%float = true) l ->
  l !! i = Some (px, py, d) -> (0 <=? d)%float = true.
Proof.
  intros Hall Hl. rewrite Forall_lookup in Hall. exact (Hall i _ Hl).
Qed.


Ltac refute :=
  exfalso; unfold TapPoint in *; cbn [negb orb] in *; to_prop;
  first
    [ lia
    | match goal with
      | Hall : Forall _ ?l, Hl : ?l !! ?i = Some ?p |- _ =>
          rewrite Forall_lookup in Hall; specialize (Hall i p Hl);
          cbn in Hall; congruence
      end
    | match goal with
      | He : is_empty ?l = false, Hn : ?l !! (?i `mod` length ?l)%nat = None
        |- _ =>
          destruct (lookup_mod_is_Some l i He); congruence
      end
    | match goal with
      | Hidx : _ \/ (?i < length ?l)%nat, Hn : ?l !! ?i = None |- _ =>
          destruct Hidx as [->|Hlt];
          [ discriminate
          | apply lookup_lt_is_Some in Hlt; destruct Hlt; congruence ]
      end ].


Lemma config_fields t t' :
  config t' = config t ->
  x t' = x t /\ y t' = y t /\ tap_interval t' = tap_interval t
  /\ jitter t' = jitter t /\ multi_tap t' = multi_tap t
  /\ total_taps t' = total_taps t /\ tap_locations t' = tap_locations t.
Proof. unfold config. intros H. injection H. auto 10. Qed.








(** ** The planner *)

Lemma ring_length w center_x center_y r angles interval :
  length (ring w center_x center_y r angles interval) = length angles.
Proof. unfold ring. apply length_map. Qed.

Lemma random_points_spec w n center_x center_y radius s :
  wp (random_points w n center_x center_y radius)
     (fun l s' =>
        self s' = self s
        /\ visible (proc s') = visible (proc s)
        /\ clock_reads (proc s') = clock_reads (proc s)
        /\ length l = n)
     (fun _ _ => False)
     s.
Proof.
  revert s. induction n as [|n IH]; intros s; cbn [random_points].
  - repeat split.
  - unfold random_point. wp_steps.
    eapply wp_call; [apply IH | | intros ? ? []].
    intros l s' (Hs & Hv & Hc & Hl). cbn. rewrite Hs, Hv, Hc, Hl.
    repeat split.
Qed.

Lemma swap_length {A} (l : list A) i j : length (swap l i j) = length l.
Proof.
  unfold swap. destruct (l !! i), (l !! j); rewrite ?length_insert; reflexivity.
Qed.

Lemma shuffle_from_spec {A} w i (l : list A) s :
  wp (shuffle_from w i l)
     (fun l' s' =>
        self s' = self s
        /\ visible (proc s') = visible (proc s)
        /\ clock_reads (proc s') = clock_reads (proc s)
        /\ length l' = length l)
     (fun _ _ => False)
     s.
Proof.
  revert l s. induction i as [|i IH]; intros l s; cbn [shuffle_from].
  - repeat split.
  - wp_steps. eapply wp_conseq; [apply IH | | intros ? ? []].
    intros l' s' (Hs & Hv & Hc & Hl). rewrite Hs, Hv, Hc, Hl, swap_length.
    repeat split.
Qed.

Lemma build_locations_spec w s :
  wp (build_locations w)
     (fun l s' =>
        self s' = self s
        /\ visible (proc s') = visible (proc s)
        /\ clock_reads (proc s') = clock_reads (proc s)
        /\ exists infill,
            length infill = 4%nat
            /\ let center_x := screen_width (self s) / 2 in
               let center_y :=
                 PyFloat.to_int
                   (PyFloat.of_int (screen_height (self s)) * 0.6) in
               let radius :=
                 PyFloat.to_int
                   (PyFloat.of_int (screen_height (self s)) * 0.20) in
               l = center_point center_x center_y
                   ++ inner_ring w center_x center_y radius
                   ++ middle_ring w center_x center_y radius
                   ++ outer_ring w center_x center_y radius
                   ++ strategic_points w center_x center_y radius
                   ++ infill)
     (fun _ _ => False)
     s.
Proof.
  unfold build_locations. eapply wp_step; [reflexivity|]. cbv beta zeta.
  eapply wp_call; [apply random_points_spec | | intros ? ? []].
  intros infill s' (Hs & Hv & Hc & Hl). cbn.
  repeat split; try assumption. exists infill. split; [exact Hl | reflexivity].
Qed.

Lemma build_locations_length w center_x center_y radius infill :
  length infill = 4%nat ->
  length (center_point center_x center_y
          ++ inner_ring w center_x center_y radius
          ++ middle_ring w center_x center_y radius
          ++ outer_ring w center_x center_y radius
          ++ strategic_points w center_x center_y radius
          ++ infill) = 46%nat.
Proof.
  intros Hl. unfold inner_ring, middle_ring, outer_ring, strategic_points.
  rewrite !length_app, !ring_length, Hl. reflexivity.
Qed.

Lemma generate_tap_locations_spec w s :
  wp (generate_tap_locations w)
     (fun _ s' =>
        visible (proc s') = visible (proc s)
        /\ clock_reads (proc s') = clock_reads (proc s)
        /\ exists l,
            length l = 46%nat /\ self s' = set_tap_locations l (self s))
     (fun _ _ => False)
     s.
Proof.
  unfold generate_tap_locations.
  eapply wp_call; [apply build_locations_spec | | intros ? ? []].
  intros l s1 (Hs1 & Hv1 & Hc1 & infill & Hl & Heq). cbv zeta in Heq.
  eapply wp_call; [apply shuffle_from_spec | | intros ? ? []].
  intros l' s2 (Hs2 & Hv2 & Hc2 & Hl2). cbn.
  repeat split; try congruence.
  exists l'. rewrite Hs2, Hs1, Hl2, Heq.
  split; [apply build_locations_length; exact Hl | reflexivity].
Qed.

(** ** The constructor *)

Lemma init_with_coordinates w px py interval j multi total p :
  __init__ w (Some px) (Some py) interval j multi total p
  = Ok tt (mkSys (mkAutoTapper (Some px) (Some py) interval j multi total
                    false 0 None [] 0 0 0) p).
Proof. unfold __init__. cbn [is_None orb when]. reflexivity. Qed.

Lemma init_without_device w x0 y0 interval j multi total p :
  x0 = None \/ y0 = None ->
  wm_size w (wm_calls p) = None ->
  exists s,
    __init__ w x0 y0 interval j multi total p = Raise (SystemExit 1) s
    /\ tap_count (self s) = 0
    /\ tap_calls (proc s) = tap_calls p
    /\ trace (proc s)
       = trace p ++ [Print MsgResolutionError; Print MsgConnectDeviceFirst].
Proof.
  intros Hxy Hwm. unfold __init__, get_screen_resolution.
  assert (is_None x0 || is_None y0 = true) as ->
    by (destruct Hxy as [-> | ->]; [|destruct x0]; reflexivity).
  cbv [when bind adb_shell_wm_size]. cbn [proc]. rewrite Hwm.
  cbv [print emit update_proc raise]. cbn [self proc trace].
  eexists. split; [reflexivity|]. proj_simpl. rewrite <- app_assoc.
  repeat split; reflexivity.
Qed.

Lemma init_with_device w x0 y0 interval j multi total p width height :
  x0 = None \/ y0 = None ->
  wm_size w (wm_calls p) = Some (width, height) ->
  exists p',
    __init__ w x0 y0 interval j multi total p
    = Ok tt (mkSys (constructed x0 y0 interval j multi total width height) p')
    /\ visible p'
       = (S (wm_calls p), tap_calls p, loop_tests p,
          trace p
            ++ [Print (MsgScreenResolution width height);
                Print (if multi then MsgMultiLocationPositions 9
                       else MsgTappingPosition
                              (Some (default (width / 2) x0))
                              (Some (default (height / 2) y0)))]).
Proof.
  intros Hxy Hwm.
  set (s0 := mkSys (mkAutoTapper x0 y0 interval j multi total
                      false 0 None [] 0 0 0) p).
  assert (wp (get_screen_resolution w)
            (fun _ s' =>
               self s' = constructed x0 y0 interval j multi total width height
               /\ visible (proc s')
                  = (S (wm_calls p), tap_calls p, loop_tests p,
                     trace p
                       ++ [Print (MsgScreenResolution width height);
                           Print (if multi then MsgMultiLocationPositions 9
                                  else MsgTappingPosition
                                         (Some (default (width / 2) x0))
                                         (Some (default (height / 2) y0)))]))
            (fun _ _ => False) s0) as Hwp.
  { unfold get_screen_resolution, s0.
    eapply wp_step; [reflexivity|]. cbn [proc]. rewrite Hwm.
    destruct multi.
    - destruct x0 as [px|], y0 as [py|];
        [destruct Hxy as [H|H]; discriminate H| | |].
      all: repeat first [ progress wp_steps | progress proj_simpl
                        | progress cbv [is_None when] ].
      all: eapply wp_call;
        [apply generate_tap_locations_spec | | intros ? ? []].
      all: intros _ s1 (Hv & _ & l & Hl & Hs1).
      all: destruct s1 as [t1 p1]; cbn [self proc] in *; subst t1.
      all: destruct l as [|pt l]; [discriminate Hl|].
      all: repeat first [ progress wp_steps | progress proj_simpl
                        | progress cbv [is_None when is_empty negb andb] ].
      all: unfold constructed, visible in *; wp_unfold; proj_simpl.
      all: injection Hv as -> -> -> ->.
      all: rewrite <- ?app_assoc; split; reflexivity.
    - destruct x0 as [px|], y0 as [py|];
        [destruct Hxy as [H|H]; discriminate H| | |].
      all: repeat first [ progress wp_steps | progress proj_simpl
                        | progress cbv [is_None when is_empty negb andb] ].
      all: unfold constructed, visible; wp_unfold; proj_simpl.
      all: rewrite <- ?app_assoc; split; reflexivity. }
  unfold __init__.
  assert (is_None x0 || is_None y0 = true) as ->
    by (destruct Hxy as [-> | ->]; [|destruct x0]; reflexivity).
  cbn [when]. fold s0. unfold wp in Hwp.
  destruct (get_screen_resolution w s0) as [[] [t' p']| |]; try contradiction.
  proj_simpl. destruct Hwp as [-> Hv]. exists p'.
  split; [reflexivity | exact Hv].
Qed.

(** ** Jitter *)

Lemma send_tap_jitter w s bx by_ d :
  selected (self s) = Some (Some bx, Some by_, d) ->
  0 <= jitter (self s) ->
  let j := jitter (self s) in
  let k := rand_draws (proc s) in
  let jx := bx + (- j + rand_bits w k `mod` (j - - j + 1)) in
  let jy := by_ + (- j + rand_bits w (S k) `mod` (j - - j + 1)) in
  wp (send_tap w)
     (fun _ s' =>
        rand_draws (proc s') = S (S k)
        /\ exists rest,
            trace (proc s')
            = trace (proc s)
                ++ Tap jx jy (input_tap w (tap_calls (proc s))) :: rest)
     (fun _ s' =>
        rand_draws (proc s') = S (S k)
        /\ exists rest,
            trace (proc s')
            = trace (proc s)
                ++ Tap jx jy (input_tap w (tap_calls (proc s))) :: rest)
     s.
Proof.
  destruct s as [[] []]. unfold selected.
  proj_simpl.
  intros Hsel Hj. cbv zeta.
  unfold send_tap, get_next_tap_location, add_jitter, display_stats.
  wp_exec; to_prop; try lia; try discriminate.
  all: injection Hsel as <- <- <-.
  all: (split; [reflexivity|]); rewrite <- ?app_assoc; cbn [app]; eauto.
Qed.

Lemma randint_bounds j r : 0 <= j -> - j <= - j + r `mod` (j - - j + 1) <= j.
Proof. intros Hj. pose proof (Z.mod_pos_bound r (j - - j + 1)). lia. Qed.

(** ** The cursor *)

Lemma advance_multi t :
  multi_tap t = true -> tap_locations t <> [] ->
  advance t = ((current_location_index t + 1) `mod` length (tap_locations t))%nat.
Proof.
  intros Hm Hl. unfold advance. rewrite Hm.
  destruct (tap_locations t); [contradiction | reflexivity].
Qed.

Lemma selected_is_Some t :
  tap_locations t = []
  \/ (current_location_index t < length (tap_locations t))%nat ->
  is_Some (selected t).
Proof.
  intros Hi. unfold selected.
  destruct (negb (multi_tap t) || is_empty (tap_locations t)) eqn:Hc; [eauto|].
  destruct Hi as [Hl|Hi].
  - rewrite Hl, orb_true_r in Hc. discriminate.
  - apply lookup_lt_is_Some in Hi. destruct Hi as [pt Hpt].
    unfold TapPoint in *. rewrite Hpt. eauto.
Qed.

Lemma dispatches_index n :
  forall s,
    multi_tap (self s) = true -> tap_locations (self s) <> [] ->
    (current_location_index (self s) < length (tap_locations (self s)))%nat ->
    wp (dispatches n)
       (fun _ s' =>
          proc s' = proc s
          /\ frame (self s') = frame (self s)
          /\ current_location_index (self s')
             = ((current_location_index (self s) + n)
                  `mod` length (tap_locations (self s)))%nat)
       (fun _ _ => False)
       s.
Proof.
  induction n as [|n IH]; intros s Hm Hl Hi; cbn [dispatches].
  - unfold wp, ret. rewrite Nat.add_0_r, Nat.mod_small by exact Hi.
    repeat split.
  - eapply wp_call; [apply get_next_tap_location_spec | |].
    2:{ intros e s1 [-> Hsel].
        destruct (selected_is_Some (self s) (or_intror Hi)) as [pt Hpt].
        congruence. }
    intros a s1 (Hp & Hf & _ & Hi1 & _).
    pose proof (frame_config _ _ Hf) as Hc.
    destruct (config_fields _ _ Hc) as (_ & _ & _ & _ & Hm1 & _ & Hl1).
    rewrite (advance_multi _ Hm Hl) in Hi1.
    assert (length (tap_locations (self s)) <> 0)%nat as Hlen
      by (destruct (tap_locations (self s)); [contradiction | discriminate]).
    eapply wp_conseq; [apply (IH s1) | | intros ? ? []]; cbv beta.
    + congruence.
    + congruence.
    + rewrite Hi1, Hl1. apply Nat.mod_upper_bound. exact Hlen.
    + intros _ s2 (Hp2 & Hf2 & Hi2).
      split; [congruence|]. split; [congruence|].
      rewrite Hi2, Hi1, Hl1, Nat.Div0.add_mod_idemp_l.
      f_equal. lia.
Qed.

Lemma cycles_index w end_time duration n :
  forall s s',
    multi_tap (self s) = true -> tap_locations (self s) <> [] ->
    (current_location_index (self s) < length (tap_locations (self s)))%nat ->
    cycles w n end_time duration s = Ok tt s' ->
    current_location_index (self s')
    = ((current_location_index (self s) + 2 * n)
         `mod` length (tap_locations (self s)))%nat.
Proof.
  induction n as [|n IH]; intros s s' Hm Hl Hi Hrun; cbn [cycles] in Hrun.
  - injection Hrun as <-. rewrite Nat.add_0_r, Nat.mod_small by exact Hi.
    reflexivity.
  - unfold bind in Hrun. pose proof (loop_body_effect w end_time duration s) as Hb.
    unfold wp in Hb.
    destruct (loop_body w end_time duration s) as [b s1| |]; try discriminate.
    destruct Hb as ((Hf & _) & Hi1 & _).
    pose proof (frame_config _ _ Hf) as Hc.
    destruct (config_fields _ _ Hc) as (_ & _ & _ & _ & Hm1 & _ & Hl1).
    assert (length (tap_locations (self s)) <> 0)%nat as Hlen
      by (destruct (tap_locations (self s)); [contradiction | discriminate]).
    rewrite advance_multi in Hi1 by (cbn; assumption).
    cbn [current_location_index set_current_location_index tap_locations]
      in Hi1.
    rewrite (advance_multi _ Hm Hl), Nat.Div0.add_mod_idemp_l in Hi1.
    rewrite (IH s1 s'); [| congruence | congruence | | exact Hrun].
    + rewrite Hi1, Hl1, Nat.Div0.add_mod_idemp_l. f_equal. lia.
    + rewrite Hi1, Hl1. apply Nat.mod_upper_bound. exact Hlen.
Qed.

Lemma index_returns i n : (i < n)%nat -> ((i + n) `mod` n)%nat = i.
Proof.
  intros Hi. rewrite <- (Nat.mul_1_l n) at 1.
  rewrite Nat.Div0.mod_add. apply Nat.mod_small. exact Hi.
Qed.

Lemma index_returns_twice i n : (i < n)%nat -> ((i + 2 * n) `mod` n)%nat = i.
Proof.
  intros Hi. rewrite Nat.Div0.mod_add. apply Nat.mod_small. exact Hi.
Qed.

(** ** What a run never writes *)

Lemma while_running_config w end_time duration fuel :
  forall s,
    wlp (while_running w fuel end_time duration)
        (fun _ s' => config (self s') = config (self s))
        (fun _ s' => config (self s') = config (self s))
        s.
Proof.
  induction fuel as [|fuel IH]; intros s; [exact I|]. cbn [while_running].
  eapply wlp_call; [apply wp_wlp, loop_test_spec | | intros ? ? []].
  intros go s1 ((Hc1 & _) & _). destruct go; [|exact Hc1].
  eapply wlp_call; [apply wp_wlp, loop_body_effect | |]; cbv beta.
  - intros b s2 ((Hf & _) & _).
    assert (config (self s2) = config (self s)) as Hc2
      by (rewrite (frame_config _ _ Hf); exact Hc1).
    destruct b; [exact Hc2|].
    eapply wlp_conseq; [apply IH | |]; cbv beta; intros; congruence.
  - intros e s2 (Hf & _). rewrite (frame_config _ _ Hf). exact Hc1.
Qed.

Lemma start_config w fuel duration s :
  wlp (start w fuel duration)
      (fun _ s' => config (self s') = config (self s))
      (fun _ s' => config (self s') = config (self s))
      s.
Proof.
  unfold start.
  eapply wlp_call; [apply wp_wlp, check_adb_connection_spec | | intros ? ? []].
  intros c s1 (_ & Hself & Hc). destruct c; cbn [negb];
    [|unfold wlp, ret; rewrite Hself; reflexivity].
  subst s1. clear Hself.
  repeat first [progress wlp_steps | progress proj_simpl | wlp_branch].
  all: match goal with
       | |- wlp _ _ _ ?st =>
           eapply (wlp_finally _ _
                     (fun _ s' => config (self s') = config (self st))
                     (fun _ s' => config (self s') = config (self st)));
           [ eapply wlp_call;
             [ apply (while_running_config w _ _ fuel st)
             | intros exit s2 Hc2; exact Hc2
             | intros e s2 Hc2; exact Hc2 ]
           | intros a s2 Hc2; eapply wlp_conseq;
             [ apply wp_wlp, session_summary_spec | |]; cbv beta
           | intros e s2 Hc2; eapply wlp_conseq;
             [ apply wp_wlp, session_summary_spec | |]; cbv beta ]
       end.
  all: intros ? s3 (Hs3 & _); rewrite Hs3, Hc2; reflexivity.
Qed.

Lemma wlp_final_state {A} (m : M A) (P : Sys -> Prop) s s' :
  wlp m (fun _ => P) (fun _ => P) s -> final_state (m s) = Some s' -> P s'.
Proof.
  unfold wlp, final_state. destruct (m s); intros H Heq; try discriminate;
    injection Heq as <-; exact H.
Qed.

Lemma wp_final_state {A} (m : M A) (P : Sys -> Prop) s :
  wp m (fun _ => P) (fun _ => P) s ->
  exists s', final_state (m s) = Some s' /\ P s'.
Proof.
  unfold wp, final_state.
  destruct (m s); intros H; [eauto | eauto | contradiction].
Qed.

Lemma get_next_without_plan s :
  tap_locations (self s) = [] ->
  get_next_tap_location s
  = Ok (x (self s), y (self s), tap_interval (self s)) s.
Proof.
  intros Hl. unfold get_next_tap_location, bind, get_self. rewrite Hl.
  cbn [is_empty]. rewrite orb_true_r. reflexivity.
Qed.

(** In multi-tap mode, with the cursor on entry [p] of the plan and [q] the
    entry after it, a pass through the body of the loop taps [q], within the
    jitter, and any pause it makes is [p]'s interval. *)
Lemma loop_body_pacing w end_time duration s p q :
  multi_tap (self s) = true ->
  tap_locations (self s) !! current_location_index (self s) = Some p ->
  tap_locations (self s)
    !! ((current_location_index (self s) + 1)
          `mod` length (tap_locations (self s)))%nat = Some q ->
  0 <= jitter (self s) ->
  wp (loop_body w end_time duration)
     (fun _ s' =>
        exists jx jy rest,
          trace (proc s')
          = trace (proc s)
              ++ Tap jx jy (input_tap w (tap_calls (proc s))) :: rest
          /\ q.1.1 - jitter (self s) <= jx <= q.1.1 + jitter (self s)
          /\ q.1.2 - jitter (self s) <= jy <= q.1.2 + jitter (self s)
          /\ In (Sleep p.2) rest)
     (fun _ s' =>
        exists jx jy rest,
          trace (proc s')
          = trace (proc s)
              ++ Tap jx jy (input_tap w (tap_calls (proc s))) :: rest
          /\ q.1.1 - jitter (self s) <= jx <= q.1.1 + jitter (self s)
          /\ q.1.2 - jitter (self s) <= jy <= q.1.2 + jitter (self s)
          /\ Forall (fun e => match e with Sleep _ => False | _ => True end)
               rest)
     s.
Proof.
  destruct s as [[x0 y0 iv j mt tot run cnt st plan idx sw sh]
                   [nwm ntap nclk nrand nloop tr]].
  proj_simpl. intros -> Hp Hq Hj.
  unfold loop_body, send_tap, get_next_tap_location, add_jitter, display_stats.
  wp_exec; unfold TapPoint in *; try congruence.
  all: to_prop; try lia.
  all: try match goal with
       | H : negb true || is_empty ?l = true |- _ =>
           exfalso; destruct l; [rewrite lookup_nil in Hp|]; discriminate
       end.
  all: simplify_eq.
  all: pose proof (randint_bounds j (rand_bits w nrand) Hj).
  all: pose proof (randint_bounds j (rand_bits w (S nrand)) Hj).
  all: rewrite <- ?app_assoc; cbn [app].
  all: eexists _, _, _; (split; [reflexivity|]).
  all: (split; [lia|]); (split; [lia|]).
  all: try (repeat constructor; fail).
  all: cbn [In]; tauto.
Qed.

(** ** The claims *)

(** C1 (the code departs from the claim).  On a 1080x1920 device, the command
    line [--x 500 --jitter 0 --total-taps 1] builds a plan whose entry 0 is
    (500, 960) with interval 0.008 and whose entry 1 is (500, 576) with
    interval 0.009.  The one cycle of the run taps entry 1 and then sleeps
    for 0.008 seconds, the interval of entry 0: the loop calls
    [get_next_tap_location] for the interval and [send_tap] calls it again
    for the point, so the pause after a tap is the interval of the point
    before the one that was tapped. *)
Theorem pacing_follows_the_previous_point :
  exists s,
    main demo_world 1 pinned_x_args = Ok tt s
    /\ tap_locations (self s) !! 0%nat = Some (500, 960, 0.008%float)
    /\ tap_locations (self s) !! 1%nat = Some (500, 576, 0.009%float)
    /\ dispatch_events (trace (proc s))
       = [Tap 500 576 true; Sleep 0.008%float]
    /\ 0.008%float <> 0.009%float.
Proof.
  eexists. split; [vm_compute; reflexivity|].
  repeat split.
  intros H. apply (f_equal (fun d => (d =? 0.008)%float)) in H.
  vm_compute in H. discriminate H.
Qed.

(** C2, as the spec states it, fails: a cycle whose tap command fails leaves
    [tap_count] as it was. *)
Lemma failed_tap_is_not_counted :
  ~ (forall w end_time duration s b s',
       loop_body w end_time duration s = Ok b s' ->
       tap_count (self s') = tap_count (self s) + 1).
Proof.
  intros H.
  specialize (H (world_with_taps (fun _ => false) demo_world) None None
                calibrated_tapper).
  vm_compute in H. specialize (H _ _ eq_refl). discriminate H.
Qed.

(** C2, amended: over one pass of the loop, whether it returns or raises,
    either no tap command was issued and [tap_count] is unchanged, or one was
    issued and [tap_count] grew by 1 if the command succeeded and by 0 if it
    failed. *)
Theorem tap_count_counts_accepted_taps w end_time duration s s' :
  final_state (loop_body w end_time duration s) = Some s' ->
  tap_calls (proc s') = tap_calls (proc s)
  /\ tap_count (self s') = tap_count (self s)
  \/ tap_calls (proc s') = S (tap_calls (proc s))
     /\ tap_count (self s')
        = tap_count (self s) + Z.b2z (input_tap w (tap_calls (proc s))).
Proof.
  intros Hfin.
  assert (tap_effect w s s') as (_ & _ & _ & Heff).
  { pose proof (loop_body_effect w end_time duration s) as Hb.
    unfold wp in Hb. unfold final_state in Hfin.
    destruct (loop_body w end_time duration s); try discriminate;
      injection Hfin as <-; [apply Hb | exact Hb]. }
  destruct Heff as [(_ & Hc & Hn) | (jx & jy & rest & _ & _ & Hc & Hn)];
    [left | right]; split; assumption.
Qed.

Lemma tap_count_counts_accepted_taps_witness :
  exists s',
    final_state
      (loop_body (world_with_taps (fun _ => false) demo_world) None None
         calibrated_tapper) = Some s'
    /\ tap_calls (proc s') = 1%nat
    /\ tap_count (self s') = 0.
Proof.
  eexists. split; [vm_compute; reflexivity|].
  destruct (tap_count_counts_accepted_taps
              (world_with_taps (fun _ => false) demo_world) None None
              calibrated_tapper _ eq_refl) as [[H _] | [H1 H2]].
  - vm_compute in H. discriminate H.
  - split; [exact H1 | exact H2].
Defined.

(** C3 (the code departs from the claim).  Whatever the screen size and the
    random draws, the list built before the shuffle has 46 points, not 45:
    1 center point, 8 on the inner ring, 12 on the middle ring, 17 on the
    outer ring ([range(0, 360, 22)] has 17 elements, where the comment in the
    source says 16), 4 strategic points and 4 random points. *)
Theorem build_locations_has_46_points w s :
  exists l s' infill,
    build_locations w s = Ok l s'
    /\ (let center_x := screen_width (self s) / 2 in
        let center_y :=
          PyFloat.to_int (PyFloat.of_int (screen_height (self s)) * 0.6) in
        let radius :=
          PyFloat.to_int (PyFloat.of_int (screen_height (self s)) * 0.20) in
        l = center_point center_x center_y
            ++ inner_ring w center_x center_y radius
            ++ middle_ring w center_x center_y radius
            ++ outer_ring w center_x center_y radius
            ++ strategic_points w center_x center_y radius
            ++ infill
        /\ length (center_point center_x center_y) = 1%nat
        /\ length (inner_ring w center_x center_y radius) = 8%nat
        /\ length (middle_ring w center_x center_y radius) = 12%nat
        /\ length (outer_ring w center_x center_y radius) = 17%nat
        /\ length (strategic_points w center_x center_y radius) = 4%nat
        /\ length infill = 4%nat)
    /\ length l = 46%nat.
Proof.
  pose proof (build_locations_spec w s) as H. unfold wp in H.
  destruct (build_locations w s) as [l s'| |]; try contradiction.
  destruct H as (_ & _ & _ & infill & Hl & Heq). cbv zeta in Heq.
  exists l, s', infill. split; [reflexivity|]. cbv zeta. split.
  - split; [exact Heq|].
    unfold inner_ring, middle_ring, outer_ring, strategic_points.
    rewrite !ring_length. repeat split; try reflexivity. exact Hl.
  - rewrite Heq. apply build_locations_length. exact Hl.
Qed.

(** C4: when both coordinates are given to the constructor, it asks the
    device nothing and builds no plan; [tap_locations] is empty then and after
    any run of [start], however it ends, and every call of
    [get_next_tap_location] returns the point [(x, y)] with the base
    [tap_interval] and leaves the object as it is, also in multi-tap mode.
    The default command line is such a case: when [main] has read the
    resolution it passes [(width // 2, int(height * 0.6))] to the
    constructor. *)
Theorem explicit_coordinates_disable_the_plan w fuel px py interval j multi
    total duration p :
  exists s0,
    __init__ w (Some px) (Some py) interval j multi total p = Ok tt s0
    /\ proc s0 = p
    /\ tap_locations (self s0) = []
    /\ get_next_tap_location s0 = Ok (Some px, Some py, interval) s0
    /\ (forall s',
          final_state (start w fuel duration s0) = Some s' ->
          tap_locations (self s') = []
          /\ get_next_tap_location s' = Ok (Some px, Some py, interval) s')
    /\ (forall args width height s',
          args_x args = None -> args_y args = None ->
          args_karaa args = true ->
          wm_size w 0 = Some (width, height) ->
          final_state (main w fuel args) = Some s' ->
          tap_locations (self s') = []
          /\ get_next_tap_location s'
             = Ok (Some (width / 2),
                   Some (PyFloat.to_int (PyFloat.of_int height * 0.6)),
                   args_interval args) s').
Proof.
  assert (forall qx qy d jj m t dur p0 s',
            final_state
              (start w fuel dur
                 (mkSys (mkAutoTapper (Some qx) (Some qy) d jj m t
                           false 0 None [] 0 0 0) p0)) = Some s' ->
            tap_locations (self s') = []
            /\ get_next_tap_location s' = Ok (Some qx, Some qy, d) s')
    as Hrun.
  { intros qx qy d jj m t dur p0 s' Hfin.
    pose proof (wlp_final_state _ _ _ _ (start_config w fuel dur _) Hfin)
      as Hc.
    destruct (config_fields _ _ Hc) as (Hx & Hy & Hi & _ & _ & _ & Hl).
    cbn in Hx, Hy, Hi, Hl. split; [exact Hl|].
    rewrite (get_next_without_plan s' Hl), Hx, Hy, Hi. reflexivity. }
  eexists. split; [apply init_with_coordinates|].
  split; [reflexivity|]. split; [reflexivity|].
  split; [rewrite get_next_without_plan by reflexivity; reflexivity|].
  split; [apply Hrun|].
  intros args width height s' Hx Hy Hk Hwm Hfin.
  unfold main, calibrate in Hfin. rewrite Hx, Hy, Hk in Hfin.
  cbn [truthy negb andb wm_calls boot] in Hfin. rewrite Hwm in Hfin.
  rewrite init_with_coordinates in Hfin. exact (Hrun _ _ _ _ _ _ _ _ _ Hfin).
Qed.

Lemma explicit_coordinates_disable_the_plan_witness :
  exists s',
    final_state (main demo_world 3 (goal_args 2)) = Some s'
    /\ tap_locations (self s') = []
    /\ get_next_tap_location s'
       = Ok (Some 540, Some 1152, 0.008%float) s'.
Proof.
  destruct (explicit_coordinates_disable_the_plan demo_world 3 0 0 0%float 8
              false None None boot)
    as (_ & _ & _ & _ & _ & _ & Hmain).
  eexists. split; [vm_compute; reflexivity|].
  apply (Hmain (goal_args 2) 1080 1920); reflexivity.
Defined.

(** C5 (the code departs from the claim).  On a 1080x1920 device, with no
    coordinate given to the constructor in multi-tap mode, the plan is the
    9-point cross and diagonal layout around the middle of the screen
    (540, 960), with radius 384 and diagonals at [int(384 * 0.7)] = 268: the
    test "we have explicit coordinates" is made after both coordinates have
    been given their defaults, so it always holds and the ring layout is
    always replaced.  With both coordinates given, the case that the comment
    in the source names, the planner does not run and the plan is empty. *)
Theorem cross_layout_without_explicit_center :
  (exists p',
      __init__ demo_world None None 0.008%float 8 true None boot
      = Ok tt (mkSys (constructed None None 0.008%float 8 true None 1080 1920)
                 p')
      /\ tap_locations (constructed None None 0.008%float 8 true None 1080 1920)
         = [ (540, 960, 0.008%float); (540, 576, 0.009%float);
             (924, 960, 0.008%float); (540, 1344, 0.009%float);
             (156, 960, 0.008%float); (808, 1228, 0.007%float);
             (808, 692, 0.007%float); (272, 1228, 0.007%float);
             (272, 692, 0.007%float) ])
  /\ (exists s,
        __init__ demo_world (Some 500) (Some 700) 0.008%float 8 true None boot
        = Ok tt s
        /\ tap_locations (self s) = []).
Proof.
  split.
  - destruct (init_with_device demo_world None None 0.008%float 8 true None
                boot 1080 1920 (or_introl eq_refl) eq_refl) as (p' & Hinit & _).
    exists p'. split; [exact Hinit|]. vm_compute. reflexivity.
  - eexists. split; [apply init_with_coordinates | reflexivity].
Qed.



(** C7: [add_jitter] returns a coordinate within [jitter] of the one it is
    given, for every coordinate and every radius (with a negative radius it
    returns nothing: [random.randint] raises ValueError).  In [send_tap],
    for the point [(bx, by)] that the cursor selects, the tap is sent at
    [(jx, jy)] with [bx - jitter <= jx <= bx + jitter] and
    [by - jitter <= jy <= by + jitter]; [jx] comes from one draw of the
    random module and [jy] from the next one, and every call of [send_tap]
    makes its own two draws. *)
Theorem jitter_stays_within_radius w s :
  (forall c,
     match add_jitter w (Some c) s with
     | Ok v s' =>
         c - jitter (self s) <= v <= c + jitter (self s)
         /\ rand_draws (proc s') = S (rand_draws (proc s))
     | Raise e _ => e = ValueError /\ jitter (self s) < 0
     | OutOfFuel => False
     end)
  /\ (forall bx by_ d,
        selected (self s) = Some (Some bx, Some by_, d) ->
        0 <= jitter (self s) ->
        let j := jitter (self s) in
        let k := rand_draws (proc s) in
        exists s' jx jy rest,
          final_state (send_tap w s) = Some s'
          /\ trace (proc s')
             = trace (proc s)
                 ++ Tap jx jy (input_tap w (tap_calls (proc s))) :: rest
          /\ bx - j <= jx <= bx + j
          /\ by_ - j <= jy <= by_ + j
          /\ jx = bx + (- j + rand_bits w k `mod` (j - - j + 1))
          /\ jy = by_ + (- j + rand_bits w (S k) `mod` (j - - j + 1))
          /\ rand_draws (proc s') = S (S k)).
Proof.
  split.
  - intros c. pose proof (add_jitter_spec w (Some c) s) as H. unfold wp in H.
    destruct (add_jitter w (Some c) s) as [v s'|e s'|]; [| |exact H].
    + destruct H as (_ & _ & Hd & Hj & c' & Hc & ->). injection Hc as <-.
      pose proof (randint_bounds (jitter (self s))
                    (rand_bits w (rand_draws (proc s))) Hj).
      split; [lia | exact Hd].
    + destruct H as (_ & _ & [[-> Hj] | [_ Hc]]); [auto | discriminate Hc].
  - intros bx by_ d Hsel Hj j k.
    destruct (wp_final_state _ _ _ (send_tap_jitter w s bx by_ d Hsel Hj))
      as (s' & Hfin & Hd & rest & Htr).
    exists s', (bx + (- j + rand_bits w k `mod` (j - - j + 1))),
      (by_ + (- j + rand_bits w (S k) `mod` (j - - j + 1))), rest.
    pose proof (randint_bounds j (rand_bits w k) Hj).
    pose proof (randint_bounds j (rand_bits w (S k)) Hj).
    repeat split; try assumption; try reflexivity; lia.
Qed.

Lemma jitter_stays_within_radius_witness :
  exists s' jx jy rest,
    final_state (send_tap demo_world calibrated_tapper) = Some s'
    /\ trace (proc s') = Tap jx jy true :: rest
    /\ 540 - 8 <= jx <= 540 + 8
    /\ 1152 - 8 <= jy <= 1152 + 8.
Proof.
  destruct (jitter_stays_within_radius demo_world calibrated_tapper)
    as [_ H].
  destruct (H 540 1152 0.008%float eq_refl ltac:(cbn; lia))
    as (s' & jx & jy & rest & Hfin & Htr & Hx & Hy & _).
  exists s', jx, jy, rest. repeat split; try assumption; apply Hx || apply Hy.
Defined.

(** C8: the text of the estimate.  Above 86400 seconds it is
    "{days}d {hours}h", above 3600 seconds "{hours}h {minutes}m", otherwise
    "{minutes}m {seconds}s", each number being a floor division ([//]) or a
    remainder ([%]) of the float, truncated by [int]; 100 seconds read
    "1m 40s", 90000 read "1d 1h", 5400 read "1h 30m"; and on whole numbers of
    seconds around the two thresholds the text is the one that integer floor
    division and remainder give. *)
Theorem eta_format (seconds_remaining : float) :
  ((86400 <? seconds_remaining)%float = true ->
   format_time_remaining seconds_remaining
   = pretty (PyFloat.to_int (PyFloat.floordiv seconds_remaining 86400))
     +:+ "d "
     +:+ pretty (PyFloat.to_int
                   (PyFloat.floordiv (PyFloat.rem seconds_remaining 86400)
                      3600))
     +:+ "h")
  /\ ((86400 <? seconds_remaining)%float = false ->
      (3600 <? seconds_remaining)%float = true ->
      format_time_remaining seconds_remaining
      = pretty (PyFloat.to_int (PyFloat.floordiv seconds_remaining 3600))
        +:+ "h "
        +:+ pretty (PyFloat.to_int
                      (PyFloat.floordiv (PyFloat.rem seconds_remaining 3600)
                         60))
        +:+ "m")
  /\ ((86400 <? seconds_remaining)%float = false ->
      (3600 <? seconds_remaining)%float = false ->
      format_time_remaining seconds_remaining
      = pretty (PyFloat.to_int (PyFloat.floordiv seconds_remaining 60))
        +:+ "m "
        +:+ pretty (PyFloat.to_int (PyFloat.rem seconds_remaining 60))
        +:+ "s")
  /\ format_time_remaining 100 = "1m 40s"
  /\ format_time_remaining 90000 = "1d 1h"
  /\ format_time_remaining 5400 = "1h 30m"
  /\ Forall (fun n => format_time_remaining (PyFloat.of_int n) = eta_text n)
       [0; 59; 60; 100; 3599; 3600; 3601; 5400; 86399; 86400; 86401; 90000;
        172800; 1000000].
Proof.
  split; [|split; [|split; [|split; [|split; [|split]]]]].
  - intros H. unfold format_time_remaining. rewrite H. reflexivity.
  - intros H1 H2. unfold format_time_remaining. rewrite H1, H2. reflexivity.
  - intros H1 H2. unfold format_time_remaining. rewrite H1, H2. reflexivity.
  - vm_compute. reflexivity.
  - vm_compute. reflexivity.
  - vm_compute. reflexivity.
  - repeat (apply Forall_cons; split; [vm_compute; reflexivity|]).
    apply Forall_nil. exact I.
Qed.

Lemma eta_format_witness :
  format_time_remaining 90000
  = pretty (PyFloat.to_int (PyFloat.floordiv 90000 86400))
    +:+ "d "
    +:+ pretty (PyFloat.to_int
                  (PyFloat.floordiv (PyFloat.rem 90000 86400) 3600))
    +:+ "h".
Proof. apply (proj1 (eta_format 90000)). reflexivity. Defined.

(** C9: in multi-point mode, with a plan of [n] > 0 points and the cursor
    inside it, each call of [get_next_tap_location] moves the cursor to
    [(cursor + 1) mod n]; [n] calls in a row return and bring the cursor back
    to where it was, leaving the plan as it is; and so do [n] passes through
    the body of the loop (each of which makes two calls) when they all
    return. *)
Theorem cursor_is_cyclic s :
  multi_tap (self s) = true ->
  tap_locations (self s) <> [] ->
  (current_location_index (self s) < length (tap_locations (self s)))%nat ->
  let n := length (tap_locations (self s)) in
  (exists a s1,
      get_next_tap_location s = Ok a s1
      /\ current_location_index (self s1)
         = ((current_location_index (self s) + 1) `mod` n)%nat)
  /\ (exists s',
        dispatches n s = Ok tt s'
        /\ current_location_index (self s') = current_location_index (self s)
        /\ tap_locations (self s') = tap_locations (self s))
  /\ (forall w end_time duration s',
        cycles w n end_time duration s = Ok tt s' ->
        current_location_index (self s') = current_location_index (self s)).
Proof.
  intros Hm Hl Hi n. split; [|split].
  - pose proof (get_next_tap_location_spec s) as H. unfold wp in H.
    destruct (get_next_tap_location s) as [a s1|e s1|]; [| |contradiction].
    + destruct H as (_ & _ & _ & Hi1 & _). exists a, s1.
      split; [reflexivity|]. rewrite Hi1. apply advance_multi; assumption.
    + destruct H as [_ Hsel].
      destruct (selected_is_Some (self s) (or_intror Hi)) as [pt Hpt].
      congruence.
  - pose proof (dispatches_index n s Hm Hl Hi) as H. unfold wp in H.
    destruct (dispatches n s) as [[] s'| |]; try contradiction.
    destruct H as (_ & Hf & Hi'). exists s'. split; [reflexivity|].
    split; [rewrite Hi'; apply index_returns; exact Hi|].
    pose proof (frame_config _ _ Hf) as Hc.
    apply (config_fields _ _ Hc).
  - intros w end_time duration s' Hrun.
    rewrite (cycles_index w end_time duration n s s' Hm Hl Hi Hrun).
    apply index_returns_twice. exact Hi.
Qed.

Lemma cursor_is_cyclic_witness :
  exists s',
    dispatches 9 (mkSys (constructed None None 0.008%float 8 true None
                           1080 1920) boot) = Ok tt s'
    /\ current_location_index (self s') = 0%nat.
Proof.
  destruct (cursor_is_cyclic
              (mkSys (constructed None None 0.008%float 8 true None
                        1080 1920) boot)
              eq_refl ltac:(discriminate) ltac:(cbn; lia))
    as (_ & (s' & Hrun & Hi & _) & _).
  exists s'. split; [exact Hrun | exact Hi].
Defined.

(** C10, as the spec states it, fails: when the device check answers false,
    [main] returns and the process ends with status 0. *)
Lemma no_device_exit_status_is_zero :
  ~ (forall w fuel args,
       connected w = false ->
       exists code,
         exit_status (main w fuel args) = Some code /\ code <> 0).
Proof.
  intros H.
  destruct (H (world_with_devices None demo_world) 0%nat default_args eq_refl)
    as (code & Hcode & Hne).
  vm_compute in Hcode. injection Hcode as <-. apply Hne. reflexivity.
Qed.

Lemma start_without_device w fuel duration s :
  connected w = false ->
  exists m,
    start w fuel duration s
    = Ok tt (mkSys (self s)
               (mkProc (wm_calls (proc s)) (tap_calls (proc s))
                  (clock_reads (proc s)) (rand_draws (proc s))
                  (loop_tests (proc s)) (trace (proc s) ++ [Print m])))
    /\ (m = MsgNoDevicesConnected \/ m = MsgAdbNotFound).
Proof.
  unfold connected, start, check_adb_connection.
  destruct (adb_devices w) as [result|].
  - destruct (no_device_listed result); [|discriminate].
    intros _. exists MsgNoDevicesConnected. split; [reflexivity | auto].
  - intros _. exists MsgAdbNotFound. split; [reflexivity | auto].
Qed.

Lemma calibrate_quiet w args :
  tap_calls (calibrate w args boot).2 = 0%nat
  /\ forallb is_notice (trace (calibrate w args boot).2) = true.
Proof.
  unfold calibrate.
  destruct (args_karaa args && negb (truthy (args_x args))
            && negb (truthy (args_y args))); [|split; reflexivity].
  destruct (wm_size w (wm_calls boot)) as [[width height]|];
    split; reflexivity.
Qed.

(** C10, amended: when the device check answers false, [start] prints one
    line (no device, or no adb) and returns at once: the object is as it was,
    no tap is sent and no summary is printed.  For the whole process: no tap
    is sent, [tap_count] is 0, no summary is printed, and the exit status is
    0, the printed line being the only sign of the failure (the status is 1
    only when the constructor has left through [sys.exit(1)] because the
    resolution query failed, before [start] was called). *)
Theorem no_device_no_run w fuel :
  connected w = false ->
  (forall duration s,
     exists m,
       start w fuel duration s
       = Ok tt (mkSys (self s)
                  (mkProc (wm_calls (proc s)) (tap_calls (proc s))
                     (clock_reads (proc s)) (rand_draws (proc s))
                     (loop_tests (proc s)) (trace (proc s) ++ [Print m])))
       /\ (m = MsgNoDevicesConnected \/ m = MsgAdbNotFound))
  /\ (forall args,
        exists s',
          final_state (main w fuel args) = Some s'
          /\ tap_count (self s') = 0
          /\ tap_calls (proc s') = 0%nat
          /\ forallb is_notice (trace (proc s')) = true
          /\ (exit_status (main w fuel args) = Some 0
              \/ exit_status (main w fuel args) = Some 1
                 /\ exists s0, main w fuel args = Raise (SystemExit 1) s0)).
Proof.
  intros Hconn. split; [intros; apply start_without_device; exact Hconn|].
  intros args. unfold main.
  pose proof (calibrate_quiet w args) as [Htc Hq].
  destruct (calibrate w args boot) as [[x_coord y_coord] p] eqn:Hcal.
  cbn [snd] in Htc, Hq.
  assert (forall t p0,
            tap_count t = 0 -> tap_calls p0 = 0%nat ->
            forallb is_notice (trace p0) = true ->
            exists s',
              final_state (start w fuel (args_duration args) (mkSys t p0))
              = Some s'
              /\ tap_count (self s') = 0
              /\ tap_calls (proc s') = 0%nat
              /\ forallb is_notice (trace (proc s')) = true
              /\ (exit_status
                    (start w fuel (args_duration args) (mkSys t p0))
                  = Some 0
                  \/ exit_status
                       (start w fuel (args_duration args) (mkSys t p0))
                     = Some 1
                     /\ exists s0,
                         start w fuel (args_duration args) (mkSys t p0)
                         = Raise (SystemExit 1) s0)) as Hstart.
  { intros t p0 Ht Hp Hn.
    destruct (start_without_device w fuel (args_duration args) (mkSys t p0)
                Hconn) as (m & -> & Hm).
    eexists. split; [reflexivity|]. cbn [self proc tap_calls trace].
    split; [exact Ht|]. split; [exact Hp|].
    split; [|left; reflexivity].
    rewrite forallb_app, Hn. destruct Hm as [-> | ->]; reflexivity. }
  destruct x_coord as [px|], y_coord as [py|].
  - rewrite init_with_coordinates. apply Hstart; [reflexivity | exact Htc | exact Hq].
  - destruct (wm_size w (wm_calls p)) as [[width height]|] eqn:Hwm.
    + destruct (init_with_device w (Some px) None (args_interval args)
                  (args_jitter args) (negb (args_single_point args))
                  (args_total_taps args) p width height
                  (or_intror eq_refl) Hwm) as (p' & -> & Hv).
      unfold visible in Hv. injection Hv as _ Htc' _ Htr'.
      apply Hstart; [reflexivity | congruence |].
      rewrite Htr', forallb_app, Hq.
      destruct (negb (args_single_point args)); reflexivity.
    + destruct (init_without_device w (Some px) None (args_interval args)
                  (args_jitter args) (negb (args_single_point args))
                  (args_total_taps args) p (or_intror eq_refl) Hwm)
        as (s0 & -> & Hn0 & Hc0 & Htr0).
      exists s0. split; [reflexivity|]. split; [exact Hn0|].
      split; [congruence|]. split; [|right; split; [reflexivity | eauto]].
      rewrite Htr0, forallb_app, Hq. reflexivity.
  - destruct (wm_size w (wm_calls p)) as [[width height]|] eqn:Hwm.
    + destruct (init_with_device w None (Some py) (args_interval args)
                  (args_jitter args) (negb (args_single_point args))
                  (args_total_taps args) p width height
                  (or_introl eq_refl) Hwm) as (p' & -> & Hv).
      unfold visible in Hv. injection Hv as _ Htc' _ Htr'.
      apply Hstart; [reflexivity | congruence |].
      rewrite Htr', forallb_app, Hq.
      destruct (negb (args_single_point args)); reflexivity.
    + destruct (init_without_device w None (Some py) (args_interval args)
                  (args_jitter args) (negb (args_single_point args))
                  (args_total_taps args) p (or_introl eq_refl) Hwm)
        as (s0 & -> & Hn0 & Hc0 & Htr0).
      exists s0. split; [reflexivity|]. split; [exact Hn0|].
      split; [congruence|]. split; [|right; split; [reflexivity | eauto]].
      rewrite Htr0, forallb_app, Hq. reflexivity.
  - destruct (wm_size w (wm_calls p)) as [[width height]|] eqn:Hwm.
    + destruct (init_with_device w None None (args_interval args)
                  (args_jitter args) (negb (args_single_point args))
                  (args_total_taps args) p width height
                  (or_introl eq_refl) Hwm) as (p' & -> & Hv).
      unfold visible in Hv. injection Hv as _ Htc' _ Htr'.
      apply Hstart; [reflexivity | congruence |].
      rewrite Htr', forallb_app, Hq.
      destruct (negb (args_single_point args)); reflexivity.
    + destruct (init_without_device w None None (args_interval args)
                  (args_jitter args) (negb (args_single_point args))
                  (args_total_taps args) p (or_introl eq_refl) Hwm)
        as (s0 & -> & Hn0 & Hc0 & Htr0).
      exists s0. split; [reflexivity|]. split; [exact Hn0|].
      split; [congruence|]. split; [|right; split; [reflexivity | eauto]].
      rewrite Htr0, forallb_app, Hq. reflexivity.
Qed.

Lemma no_device_no_run_witness :
  exists s',
    final_state (main (world_with_devices None demo_world) 0 default_args)
    = Some s'
    /\ tap_count (self s') = 0
    /\ exit_status (main (world_with_devices None demo_world) 0 default_args)
       = Some 0.
Proof.
  destruct (no_device_no_run (world_with_devices None demo_world) 0 eq_refl)
    as [_ H].
  destruct (H default_args) as (s' & Hfin & Hn & _).
  exists s'. split; [exact Hfin|]. split; [exact Hn|]. vm_compute. reflexivity.
Defined.

(** * Further properties of the program *)

(** ** Rules for the loop and for [start] *)

(** The rule of the [while] loop: an invariant [Inv] of the states at the test
    of the condition, and a transitive relation [R] between the state at a
    test and any later state. *)
Lemma while_running_rule w end_time duration
    (Inv : Sys -> Prop) (R : Sys -> Sys -> Prop)
    (RE : Exn -> Sys -> Sys -> Prop) :
  (forall s1 s2 s3, R s1 s2 -> R s2 s3 -> R s1 s3) ->
  (forall e s1 s2 s3, R s1 s2 -> RE e s2 s3 -> RE e s1 s3) ->
  (forall s, Inv s ->
     wp (loop_test w) (fun _ s' => Inv s' /\ R s s') (fun _ _ => False) s) ->
  (forall s, Inv s ->
     wp (loop_body w end_time duration)
        (fun _ s' => Inv s' /\ R s s') (fun e s' => RE e s s') s) ->
  forall fuel s, Inv s ->
    wlp (while_running w fuel end_time duration)
        (fun _ s' => Inv s' /\ R s s') (fun e s' => RE e s s') s.
Proof.
  intros Htrans Htrans' Htest Hbody.
  induction fuel as [|fuel IH]; intros s Hs; [exact I|]. cbn [while_running].
  eapply wlp_call; [apply wp_wlp, (Htest s Hs) | | intros ? ? []].
  intros go s1 [HI1 HR1]. destruct go; [|split; assumption].
  eapply wlp_call; [apply wp_wlp, (Hbody s1 HI1) | |]; cbv beta.
  - intros b s2 [HI2 HR2]. destruct b as [exit|].
    + split; [exact HI2 | eapply Htrans; eassumption].
    + eapply wlp_conseq; [apply (IH s2 HI2) | |]; cbv beta.
      * intros exit s3 [HI3 HR3]. split; [exact HI3|].
        eapply Htrans; [|exact HR3]. eapply Htrans; eassumption.
      * intros e s3 HR3.
        eapply Htrans'; [|exact HR3]. eapply Htrans; eassumption.
  - intros e s2 HR2. eapply Htrans'; eassumption.
Qed.

Lemma check_adb_connection_connected w s :
  connected w = true -> check_adb_connection w s = Ok true s.
Proof.
  unfold connected, check_adb_connection.
  destruct (adb_devices w) as [result|]; [|discriminate].
  destruct (no_device_listed result); [discriminate|]. reflexivity.
Qed.

(** With a device attached, [start] is its loop and its [finally] block, run
    from the state [started]. *)
Lemma start_connected w fuel duration s :
  connected w = true ->
  start w fuel duration s
  = finally (while_running w fuel
               (deadline w duration (clock_reads (proc s))) duration ;;
             ret tt)
            (session_summary w) (started w duration s).
Proof.
  intros Hconn. unfold start at 1. unfold bind at 1.
  rewrite (check_adb_connection_connected w s Hconn). cbn [negb].
  destruct s as [[x0 y0 iv j mt tot run cnt st plan idx sw sh]
                   [nwm ntap nclk nrand nloop tr]].
  unfold started, banner, deadline. proj_simpl.
  destruct duration as [d|], mt, (truthy tot) eqn:Htot;
    cbv [bind update time_time get_self ret when print emit update_proc];
    proj_simpl; rewrite ?Htot; proj_simpl;
    rewrite <- ?app_assoc; reflexivity.
Qed.

(** The [finally] block, when the start time is known. *)
Lemma session_summary_lines w s t0 :
  start_time (self s) = Some t0 ->
  session_summary w s = Ok tt (summarized w t0 s).
Proof.
  destruct s as [[x0 y0 iv j mt tot run cnt st plan idx sw sh]
                   [nwm ntap nclk nrand nloop tr]].
  proj_simpl. intros ->. unfold session_summary, summarized, summary_lines.
  proj_simpl.
  destruct (truthy tot) eqn:Htot;
    cbv [bind update time_time get_self ret when print emit update_proc];
    proj_simpl; rewrite ?Htot; proj_simpl;
    rewrite <- ?app_assoc; reflexivity.
Qed.

(** The rule of [start] with a device attached: what holds of the state
    that the loop leaves holds of it after the summary. *)
Lemma start_rule w fuel duration s
    (P : Sys -> Prop) (PE : Exn -> Sys -> Prop) :
  connected w = true ->
  wlp (while_running w fuel (deadline w duration (clock_reads (proc s)))
         duration)
      (fun _ s2 => P s2) PE (started w duration s) ->
  (forall s2, P s2 ->
     start_time (self s2) = Some (clock w (clock_reads (proc s)))) ->
  (forall e s2, PE e s2 ->
     start_time (self s2) = Some (clock w (clock_reads (proc s)))) ->
  wlp (start w fuel duration)
      (fun _ s' =>
         exists s2,
           P s2 /\ s' = summarized w (clock w (clock_reads (proc s))) s2)
      (fun e s' =>
         exists s2,
           PE e s2 /\ s' = summarized w (clock w (clock_reads (proc s))) s2)
      s.
Proof.
  intros Hconn Hloop HP HPE. unfold wlp.
  rewrite (start_connected w fuel duration s Hconn).
  unfold wlp in Hloop. unfold finally, bind, ret, raise.
  destruct (while_running w fuel _ duration (started w duration s))
    as [exit s2|e s2|]; [| |exact I].
  - rewrite (session_summary_lines w s2 _ (HP s2 Hloop)). eauto.
  - rewrite (session_summary_lines w s2 _ (HPE e s2 Hloop)). eauto.
Qed.

(** ** The events of a cycle *)

Lemma pace_app evs1 evs2 b b1 :
  pace b evs1 = Some b1 -> pace b (evs1 ++ evs2) = pace b1 evs2.
Proof.
  revert b. induction evs1 as [|[px py ok|d|m] evs1 IH]; intros b H; cbn in *.
  - injection H as ->. reflexivity.
  - destruct b; [discriminate | apply IH, H].
  - destruct b; [apply IH, H | discriminate].
  - apply IH, H.
Qed.

Lemma attempts_app evs1 evs2 :
  attempts (evs1 ++ evs2) = (attempts evs1 + attempts evs2)%nat.
Proof.
  induction evs1 as [|[px py ok|d|m] evs1 IH]; cbn; rewrite ?IH; reflexivity.
Qed.

(** One pass through the body of the loop sends one tap command and then
    makes one pause; a pass that raises has sent at most one tap command. *)
Lemma loop_body_trace w end_time duration s :
  wp (loop_body w end_time duration)
     (fun _ s' =>
        exists evs,
          trace (proc s') = trace (proc s) ++ evs
          /\ pace false evs = Some false
          /\ attempts evs = 1%nat
          /\ tap_calls (proc s') = (tap_calls (proc s) + attempts evs)%nat
          /\ tap_count (self s') = tap_count (self s) + accepted_taps evs)
     (fun _ s' =>
        exists evs,
          trace (proc s') = trace (proc s) ++ evs
          /\ is_Some (pace false evs)
          /\ (attempts evs <= 1)%nat
          /\ tap_calls (proc s') = (tap_calls (proc s) + attempts evs)%nat
          /\ tap_count (self s') = tap_count (self s) + accepted_taps evs)
     s.
Proof.
  destruct s as [[x0 y0 iv j mt tot run cnt st plan idx sw sh]
                   [nwm ntap nclk nrand nloop tr]].
  unfold loop_body, send_tap, get_next_tap_location, add_jitter, display_stats.
  wp_exec.
  all: rewrite <- ?app_assoc; cbn [app].
  all: first
         [ exists []; rewrite app_nil_r; cbn;
           repeat split; eauto; lia
         | eexists; split; [reflexivity|]; cbn;
           repeat split; eauto; lia ].
Qed.

Lemma mod_cursor_bound {A} (l : list A) (i : nat) :
  is_empty l = false -> l = [] \/ (i `mod` length l < length l)%nat.
Proof.
  intros Hl. right. apply Nat.mod_upper_bound.
  destruct l; [discriminate | cbn; lia].
Qed.

(** A pass leaves a sound object sound, and on a sound object it raises
    nothing but ValueError (from [random.randint] on a negative jitter, from
    [time.sleep] on a negative interval), or TypeError when the start time
    is not set. *)
Lemma loop_body_sound w end_time duration s :
  sound (self s) ->
  wp (loop_body w end_time duration)
     (fun _ s' => sound (self s'))
     (fun e s' =>
        sound (self s')
        /\ (e = ValueError \/ e = TypeError /\ start_time (self s) = None))
     s.
Proof.
  destruct s as [[x0 y0 iv j mt tot run cnt st plan idx sw sh]
                   [nwm ntap nclk nrand nloop tr]].
  unfold sound. proj_simpl. intros ([px ->] & [py ->] & Hidx).
  unfold loop_body, send_tap, get_next_tap_location, add_jitter, display_stats.
  wp_exec.
  all: try discriminate.
  all: try refute.
  all: repeat match goal with
       | |- _ /\ _ => split
       | |- is_Some (Some _) => eexists; reflexivity
       | |- ValueError = ValueError \/ _ => left; reflexivity
       | |- TypeError = ValueError \/ _ => right; split; reflexivity
       | |- _ \/ (_ `mod` _ < _)%nat => apply mod_cursor_bound; assumption
       | |- _ \/ (_ < _)%nat => exact Hidx
       end.
Qed.

(** ** The shape of a run *)

Lemma wlp_and {A} (m : M A) (Q1 Q2 : A -> Sys -> Prop)
    (E1 E2 : Exn -> Sys -> Prop) s :
  wlp m Q1 E1 s -> wlp m Q2 E2 s ->
  wlp m (fun a s' => Q1 a s' /\ Q2 a s') (fun e s' => E1 e s' /\ E2 e s') s.
Proof. unfold wlp. destruct (m s); auto. Qed.

Lemma run_shape_refl s : run_shape s s [].
Proof.
  unfold run_shape. rewrite app_nil_r. cbn. repeat split; lia.
Qed.

Lemma run_shape_trans s1 s2 s3 evs1 evs2 :
  run_shape s1 s2 evs1 -> run_shape s2 s3 evs2 ->
  run_shape s1 s3 (evs1 ++ evs2).
Proof.
  intros (Hc1 & Ht1 & Htr1 & Hn1 & Hk1) (Hc2 & Ht2 & Htr2 & Hn2 & Hk2).
  unfold run_shape.
  rewrite attempts_app, accepted_taps_app, app_assoc, <- Htr1.
  repeat split; try congruence; lia.
Qed.

Lemma loop_test_shape w s :
  wp (loop_test w)
     (fun _ s' =>
        run_shape s s' []
        /\ current_location_index (self s')
           = current_location_index (self s))
     (fun _ _ => False) s.
Proof.
  eapply wp_conseq; [apply loop_test_spec | | intros ? ? []]; cbv beta.
  intros go s' ((Hc & Ht & Hn & Hi & Hv) & _). unfold visible in Hv.
  injection Hv as _ Htc _ Htr. unfold run_shape. rewrite app_nil_r. cbn.
  repeat split; try assumption; lia.
Qed.

Lemma loop_body_shape w end_time duration s :
  wp (loop_body w end_time duration)
     (fun _ s' =>
        exists evs,
          run_shape s s' evs /\ pace false evs = Some false
          /\ attempts evs = 1%nat)
     (fun _ s' =>
        exists evs,
          run_shape s s' evs /\ is_Some (pace false evs)
          /\ (attempts evs <= 1)%nat)
     s.
Proof.
  eapply wp_conseq;
    [ apply (wp_and _ _ _ _ _ _ (loop_body_trace w end_time duration s)
               (loop_body_effect w end_time duration s)) | |]; cbv beta.
  - intros b s' ((evs & Htr & Hp & Ha & Hn & Hk) & ((Hf & _) & _)).
    exists evs. unfold run_shape.
    rewrite (frame_config _ _ Hf), (frame_start_time _ _ Hf). auto 10.
  - intros e s' ((evs & Htr & Hp & Ha & Hn & Hk) & (Hf & _)).
    exists evs. unfold run_shape.
    rewrite (frame_config _ _ Hf), (frame_start_time _ _ Hf). auto 10.
Qed.

Lemma while_running_shape w end_time duration fuel s :
  wlp (while_running w fuel end_time duration)
      (fun _ s' => exists evs, run_shape s s' evs /\ pace false evs = Some false)
      (fun _ s' => exists evs, run_shape s s' evs /\ is_Some (pace false evs))
      s.
Proof.
  eapply wlp_conseq;
    [ apply (while_running_rule w end_time duration
               (fun _ => True)
               (fun s s' =>
                  exists evs, run_shape s s' evs /\ pace false evs = Some false)
               (fun _ s s' =>
                  exists evs, run_shape s s' evs /\ is_Some (pace false evs)))
    | |]; cbv beta.
  - intros s1 s2 s3 (evs1 & H1 & P1) (evs2 & H2 & P2). exists (evs1 ++ evs2).
    split; [eapply run_shape_trans; eassumption|].
    rewrite (pace_app _ _ _ _ P1). exact P2.
  - intros e s1 s2 s3 (evs1 & H1 & P1) (evs2 & H2 & P2). exists (evs1 ++ evs2).
    split; [eapply run_shape_trans; eassumption|].
    rewrite (pace_app _ _ _ _ P1). exact P2.
  - intros s1 _. eapply wp_conseq; [apply loop_test_shape | | intros ? ? []].
    cbv beta. intros _ s2 [H _]. split; [exact I|]. exists []. auto.
  - intros s1 _. eapply wp_conseq; [apply loop_body_shape | |]; cbv beta.
    + intros _ s2 (evs & H & P & _). eauto.
    + intros _ s2 (evs & H & P & _). eauto.
  - exact I.
  - intros _ s' [_ H]. exact H.
  - intros _ s' H. exact H.
Qed.

Lemma sound_same t t' :
  config t' = config t ->
  current_location_index t' = current_location_index t ->
  sound t -> sound t'.
Proof.
  intros Hc Hi (Hx & Hy & Hidx).
  destruct (config_fields _ _ Hc) as (Ex & Ey & _ & _ & _ & _ & El).
  unfold sound. rewrite Ex, Ey, El, Hi. auto.
Qed.

Lemma while_running_sound w end_time duration fuel s :
  sound (self s) ->
  wlp (while_running w fuel end_time duration)
      (fun _ s' => sound (self s'))
      (fun e s' =>
         sound (self s')
         /\ (e = ValueError \/ e = TypeError /\ start_time (self s) = None))
      s.
Proof.
  intros Hs.
  eapply wlp_conseq;
    [ apply (while_running_rule w end_time duration
               (fun s => sound (self s))
               (fun s s' => start_time (self s') = start_time (self s))
               (fun e s s' =>
                  sound (self s')
                  /\ (e = ValueError
                      \/ e = TypeError /\ start_time (self s) = None)))
    | |]; cbv beta.
  - intros; congruence.
  - intros e s1 s2 s3 H12 [H3 [He | [He Hst]]];
      (split; [exact H3|]); [left | right; split]; congruence.
  - intros s1 H1. eapply wp_conseq; [apply loop_test_shape | | intros ? ? []].
    cbv beta. intros _ s2 [(Hc & Ht & _) Hi].
    split; [exact (sound_same _ _ Hc Hi H1) | exact Ht].
  - intros s1 H1.
    eapply wp_conseq;
      [ apply (wp_and _ _ _ _ _ _ (loop_body_sound w end_time duration s1 H1)
                 (loop_body_shape w end_time duration s1)) | |]; cbv beta.
    + intros _ s2 (H2 & evs & (_ & Ht & _) & _). auto.
    + intros e s2 (H2 & _). exact H2.
  - exact Hs.
  - intros _ s' [H _]. exact H.
  - intros e s' H. exact H.
Qed.

Lemma started_sound w duration s : sound (self s) -> sound (self (started w duration s)).
Proof. destruct s as [[] []]. exact (fun H => H). Qed.

Lemma summary_lines_prints t elapsed b :
  pace b (summary_lines t elapsed) = Some b
  /\ attempts (summary_lines t elapsed) = 0%nat
  /\ pauses (summary_lines t elapsed) = 0%nat
  /\ accepted_taps (summary_lines t elapsed) = 0.
Proof. unfold summary_lines. destruct (truthy (total_taps t)); repeat split. Qed.

Lemma banner_prints t b :
  pace b (banner t) = Some b
  /\ attempts (banner t) = 0%nat
  /\ pauses (banner t) = 0%nat
  /\ accepted_taps (banner t) = 0.
Proof.
  unfold banner. destruct (multi_tap t), (truthy (total_taps t)); repeat split.
Qed.

(** With a device attached: what [start] leaves, whether it returns or
    raises.  The run appends the banner, the events [evs] of the loop and the
    summary; [s2] is the state that the loop left. *)
Lemma start_shape w fuel duration s :
  connected w = true ->
  let t0 := clock w (clock_reads (proc s)) in
  wlp (start w fuel duration)
      (fun _ s' =>
         exists s2 evs,
           s' = summarized w t0 s2
           /\ run_shape (started w duration s) s2 evs
           /\ pace false evs = Some false)
      (fun _ s' =>
         exists s2 evs,
           s' = summarized w t0 s2
           /\ run_shape (started w duration s) s2 evs
           /\ is_Some (pace false evs))
      s.
Proof.
  intros Hconn t0. subst t0.
  assert (start_time (self (started w duration s))
          = Some (clock w (clock_reads (proc s)))) as Hst
    by (destruct s as [[] []]; reflexivity).
  eapply wlp_conseq;
    [ apply (start_rule w fuel duration s
               (fun s2 =>
                  exists evs,
                    run_shape (started w duration s) s2 evs
                    /\ pace false evs = Some false)
               (fun _ s2 =>
                  exists evs,
                    run_shape (started w duration s) s2 evs
                    /\ is_Some (pace false evs)) Hconn)
    | |]; cbv beta.
  - apply while_running_shape.
  - intros s2 (evs & (_ & Ht & _) & _). congruence.
  - intros _ s2 (evs & (_ & Ht & _) & _). congruence.
  - intros _ s' (s2 & (evs & H & P) & ->). eauto.
  - intros _ s' (s2 & (evs & H & P) & ->). eauto.
Qed.

(** On a sound object [start] raises nothing but ValueError, and it leaves
    the object sound. *)
Lemma start_sound w fuel duration s :
  sound (self s) ->
  wlp (start w fuel duration)
      (fun _ s' => sound (self s'))
      (fun e s' => sound (self s') /\ e = ValueError)
      s.
Proof.
  intros Hs. destruct (connected w) eqn:Hconn.
  2:{ destruct (start_without_device w fuel duration s Hconn) as (m & H & _).
      unfold wlp. rewrite H. exact Hs. }
  assert (start_time (self (started w duration s))
          = Some (clock w (clock_reads (proc s)))) as Hst
    by (destruct s as [[] []]; reflexivity).
  eapply wlp_conseq;
    [ apply (start_rule w fuel duration s
               (fun s2 =>
                  sound (self s2)
                  /\ start_time (self s2)
                     = Some (clock w (clock_reads (proc s))))
               (fun e s2 =>
                  (sound (self s2) /\ e = ValueError)
                  /\ start_time (self s2)
                     = Some (clock w (clock_reads (proc s)))) Hconn)
    | |]; cbv beta.
  - eapply wlp_conseq;
      [ apply (wlp_and _ _ _ _ _ _
                 (while_running_sound w _ duration fuel _
                    (started_sound w duration s Hs))
                 (while_running_shape w _ duration fuel
                    (started w duration s))) | |]; cbv beta.
    + intros _ s2 (H2 & evs & (_ & Ht & _) & _). split; congruence.
    + intros e s2 ((H2 & He) & evs & (_ & Ht & _) & _).
      split; [|congruence]. split; [exact H2|].
      destruct He as [He | [_ Hnone]]; [exact He | congruence].
  - intros s2 [_ H]. exact H.
  - intros e s2 [_ H]. exact H.
  - intros _ s' (s2 & [H _] & ->). exact H.
  - intros e s' (s2 & [H _] & ->). exact H.
Qed.

(** ** SIGINT, and the first cycle *)






(** ** Properties of a run *)

Lemma init_sound w x0 y0 interval j multi total p s0 :
  __init__ w x0 y0 interval j multi total p = Ok tt s0 -> sound (self s0).
Proof.
  intros Hinit.
  assert (forall width height,
            sound (constructed x0 y0 interval j multi total width height))
    as Hcons.
  { intros width height. unfold sound, constructed. cbn.
    repeat split; eauto. destruct multi; [right; cbn; lia | left; reflexivity]. }
  destruct x0 as [px|], y0 as [py|].
  - rewrite init_with_coordinates in Hinit. injection Hinit as <-.
    unfold sound. cbn. eauto.
  - destruct (wm_size w (wm_calls p)) as [[width height]|] eqn:Hwm.
    + destruct (init_with_device w (Some px) None interval j multi total p
                  width height (or_intror eq_refl) Hwm) as (p' & H & _).
      rewrite H in Hinit. injection Hinit as <-. apply Hcons.
    + destruct (init_without_device w (Some px) None interval j multi total p
                  (or_intror eq_refl) Hwm) as (s1 & H & _).
      rewrite H in Hinit. discriminate Hinit.
  - destruct (wm_size w (wm_calls p)) as [[width height]|] eqn:Hwm.
    + destruct (init_with_device w None (Some py) interval j multi total p
                  width height (or_introl eq_refl) Hwm) as (p' & H & _).
      rewrite H in Hinit. injection Hinit as <-. apply Hcons.
    + destruct (init_without_device w None (Some py) interval j multi total p
                  (or_introl eq_refl) Hwm) as (s1 & H & _).
      rewrite H in Hinit. discriminate Hinit.
  - destruct (wm_size w (wm_calls p)) as [[width height]|] eqn:Hwm.
    + destruct (init_with_device w None None interval j multi total p
                  width height (or_introl eq_refl) Hwm) as (p' & H & _).
      rewrite H in Hinit. injection Hinit as <-. apply Hcons.
    + destruct (init_without_device w None None interval j multi total p
                  (or_introl eq_refl) Hwm) as (s1 & H & _).
      rewrite H in Hinit. discriminate Hinit.
Qed.

Lemma pace_counts evs : forall b b',
  pace b evs = Some b' ->
  (attempts evs + (if b then 1 else 0) = pauses evs + (if b' then 1 else 0))%nat.
Proof.
  induction evs as [|[px py ok|d|m] evs IH]; intros b b' H; cbn in *.
  - injection H as ->. reflexivity.
  - destruct b; [discriminate|]. specialize (IH _ _ H). cbn in IH. lia.
  - destruct b; [|discriminate]. specialize (IH _ _ H). cbn in IH. lia.
  - exact (IH _ _ H).
Qed.

(** X1: an object that the constructor has returned is sound (both
    coordinates are known and the cursor is inside the plan, or the plan is
    empty), and every run of [start] on it, in any world and with any time
    limit, leaves it sound, whether the run returns or raises: [start]
    never raises IndexError (the lookup
    [self.tap_locations[self.current_location_index]] cannot be out of
    range), never TypeError (no arithmetic on a coordinate or on a start time
    that is None), and never SystemExit. *)
Theorem constructed_object_stays_sound w x0 y0 interval j multi total p s0 :
  __init__ w x0 y0 interval j multi total p = Ok tt s0 ->
  sound (self s0)
  /\ forall fuel duration,
       (forall s',
          final_state (start w fuel duration s0) = Some s' -> sound (self s'))
       /\ (forall e s',
             start w fuel duration s0 = Raise e s' ->
             e <> IndexError /\ e <> TypeError
             /\ forall code, e <> SystemExit code).
Proof.
  intros Hinit. pose proof (init_sound _ _ _ _ _ _ _ _ _ Hinit) as Hs.
  split; [exact Hs|]. intros fuel duration.
  pose proof (start_sound w fuel duration s0 Hs) as H. unfold wlp in H.
  split.
  - intros s' Hfin. unfold final_state in Hfin.
    destruct (start w fuel duration s0) as [u s1|e s1|]; [| |discriminate];
      injection Hfin as <-; [exact H | exact (proj1 H)].
  - intros e s' Heq. rewrite Heq in H. destruct H as [_ ->].
    repeat split; intros; discriminate.
Qed.

Lemma constructed_object_stays_sound_witness :
  sound (mkAutoTapper (Some 540) (Some 1152) 0.008%float 8 true None
           false 0 None [] 0 0 0).
Proof.
  exact (proj1 (constructed_object_stays_sound demo_world (Some 540)
                  (Some 1152) 0.008%float 8 true None boot _ eq_refl)).
Defined.



(** X3: the rhythm of a run.  In what [start] emits, in any world and
    whether it returns or raises, a tap command is sent only when the one
    before it has been followed by a pause, and a pause is made only after a
    tap command: tap commands and pauses alternate, beginning with a tap
    command.  The number of [adb] tap commands issued is the number of [Tap]
    events; when [start] returns, every tap command has been followed by its
    pause. *)
Theorem taps_and_pauses_alternate w fuel duration s s' :
  final_state (start w fuel duration s) = Some s' ->
  exists evs,
    trace (proc s') = trace (proc s) ++ evs
    /\ is_Some (pace false evs)
    /\ tap_calls (proc s') = (tap_calls (proc s) + attempts evs)%nat
    /\ (pauses evs <= attempts evs <= pauses evs + 1)%nat
    /\ (forall u, start w fuel duration s = Ok u s' ->
          pace false evs = Some false /\ pauses evs = attempts evs).
Proof.
  intros Hfin. destruct (connected w) eqn:Hconn.
  2:{ destruct (start_without_device w fuel duration s Hconn) as (m & H & _).
      rewrite H in Hfin |- *. injection Hfin as <-. exists [Print m]. cbn.
      repeat split; eauto; lia. }
  pose proof (start_shape w fuel duration s Hconn) as H. cbv zeta in H.
  unfold wlp in H. unfold final_state in Hfin.
  assert (forall s2 evs b,
            s' = summarized w (clock w (clock_reads (proc s))) s2 ->
            run_shape (started w duration s) s2 evs ->
            pace false evs = Some b ->
            exists evs',
              trace (proc s') = trace (proc s) ++ evs'
              /\ pace false evs' = Some b
              /\ tap_calls (proc s') = (tap_calls (proc s) + attempts evs')%nat
              /\ (pauses evs' <= attempts evs' <= pauses evs' + 1)%nat
              /\ (b = false -> pauses evs' = attempts evs')) as Hshape.
  { intros s2 evs b -> (_ & _ & Htr & Hn & _) Hp.
    set (sm := summary_lines (self s2)
                 (clock w (clock_reads (proc s2))
                  - clock w (clock_reads (proc s)))%float).
    destruct (banner_prints (self s) false) as (Hb1 & Hb2 & _).
    destruct (summary_lines_prints (self s2)
                (clock w (clock_reads (proc s2))
                 - clock w (clock_reads (proc s)))%float b)
      as (Hs1 & Hs2 & _).
    fold sm in Hs1, Hs2.
    assert (pace false (banner (self s) ++ evs ++ sm) = Some b) as Hpace.
    { rewrite (pace_app _ _ _ _ Hb1), (pace_app _ _ _ _ Hp). exact Hs1. }
    exists (banner (self s) ++ evs ++ sm).
    pose proof (pace_counts _ _ _ Hpace) as Hcount.
    unfold started in Htr, Hn. unfold summarized.
    cbn [proc trace tap_calls] in *. fold sm.
    rewrite Htr, Hn, !attempts_app, Hb2, Hs2.
    rewrite !attempts_app, Hb2, Hs2 in Hcount.
    rewrite <- !app_assoc.
    split; [reflexivity|]. split; [exact Hpace|]. split; [lia|].
    split; [destruct b; cbv iota in Hcount; lia | intros ->; cbv iota in Hcount; lia]. }
  destruct (start w fuel duration s) as [u s1|e s1|]; [| |discriminate];
    injection Hfin as <-.
  - destruct H as (s2 & evs & H1 & H2 & Hp).
    destruct (Hshape s2 evs false H1 H2 Hp) as (evs' & E1 & E2 & E3 & E4 & E5).
    specialize (E5 eq_refl). exists evs'. rewrite E2.
    repeat split; eauto; lia.
  - destruct H as (s2 & evs & H1 & H2 & [b Hp]).
    destruct (Hshape s2 evs b H1 H2 Hp) as (evs' & E1 & E2 & E3 & E4 & E5).
    exists evs'. rewrite E2. repeat split; eauto; try lia.
    all: match goal with Hu : Raise _ _ = Ok _ _ |- _ => discriminate Hu end.
Qed.

Lemma taps_and_pauses_alternate_witness :
  exists s' evs,
    start demo_world 2 None (goal_tapper 2) = Ok tt s'
    /\ trace (proc s') = evs
    /\ pace false evs = Some false
    /\ attempts evs = 2%nat /\ pauses evs = 2%nat.
Proof.
  assert (exists s', start demo_world 2 None (goal_tapper 2) = Ok tt s')
    as [s' Hrun] by (vm_compute; eauto).
  destruct (taps_and_pauses_alternate demo_world 2 None (goal_tapper 2) s')
    as (evs & Htr & _ & Hn & _ & Hok); [rewrite Hrun; reflexivity|].
  destruct (Hok tt Hrun) as [Hp Hc].
  exists s', evs. split; [exact Hrun|]. split; [exact Htr|].
  split; [exact Hp|].
  assert (tap_calls (proc s') = 2%nat) as Htc.
  { vm_compute in Hrun. injection Hrun as <-. reflexivity. }
  rewrite Htc in Hn. cbn in Hn. split; [|rewrite Hc]; symmetry; exact Hn.
Defined.

Lemma started_fields w duration s :
  start_time (self (started w duration s))
  = Some (clock w (clock_reads (proc s)))
  /\ loop_tests (proc (started w duration s)) = loop_tests (proc s)
  /\ tap_calls (proc (started w duration s)) = tap_calls (proc s)
  /\ tap_count (self (started w duration s)) = 0
  /\ running (self (started w duration s)) = true
  /\ config (self (started w duration s)) = config (self s)
  /\ current_location_index (self (started w duration s))
     = current_location_index (self s)
  /\ trace (proc (started w duration s))
     = trace (proc s) ++ banner (self s).
Proof. destruct s as [[] []]. repeat split. Qed.





(** ** Goals that are not positive *)




Ltac run_both :=
  cbv [map_state without_goal with_total_taps
       bind ret raise get_self update update_proc emit print when sleep
       time_time randbelow random_randint random_random random_uniform
       adb_shell_input_tap adb_shell_wm_size stop goal_reached];
  repeat first
    [ progress proj_simpl
    | progress (change (truthy (Some 0)) with false)
    | progress (change (truthy None) with false)
    | progress (cbn [andb])
    | progress (cbv iota)
    | split_cond ];
  try reflexivity.

Lemma loop_test_zero_goal w s :
  map_state without_goal (loop_test w s) = loop_test w (without_goal s).
Proof. destruct s as [[] []]. unfold loop_test. run_both. Qed.

Lemma loop_body_zero_goal w end_time duration s :
  total_taps (self s) = Some 0 ->
  map_state without_goal (loop_body w end_time duration s)
  = loop_body w end_time duration (without_goal s).
Proof.
  destruct s as [[x0 y0 iv j mt tot run cnt st plan idx sw sh]
                   [nwm ntap nclk nrand nloop tr]].
  proj_simpl. intros ->.
  unfold loop_body, send_tap, get_next_tap_location, add_jitter, display_stats.
  run_both.
Qed.

Lemma session_summary_zero_goal w s :
  total_taps (self s) = Some 0 ->
  map_state without_goal (session_summary w s)
  = session_summary w (without_goal s).
Proof.
  destruct s as [[x0 y0 iv j mt tot run cnt st plan idx sw sh]
                   [nwm ntap nclk nrand nloop tr]].
  proj_simpl. intros ->. unfold session_summary. run_both.
Qed.

Lemma loop_keeps_goal w end_time duration s :
  wp (loop_body w end_time duration)
     (fun _ s' => total_taps (self s') = total_taps (self s))
     (fun _ s' => total_taps (self s') = total_taps (self s)) s
  /\ wp (loop_test w)
       (fun _ s' => total_taps (self s') = total_taps (self s))
       (fun _ _ => False) s.
Proof.
  split.
  - eapply wp_conseq; [apply loop_body_effect | |]; cbv beta.
    + intros b s' ((Hf & _) & _).
      exact (config_total_taps _ _ (frame_config _ _ Hf)).
    + intros e s' (Hf & _).
      exact (config_total_taps _ _ (frame_config _ _ Hf)).
  - eapply wp_conseq; [apply loop_test_spec | | intros ? ? []]; cbv beta.
    intros go s' ((Hc & _) & _). exact (config_total_taps _ _ Hc).
Qed.

Lemma while_running_zero_goal w end_time duration fuel :
  forall s,
    total_taps (self s) = Some 0 ->
    map_state without_goal (while_running w fuel end_time duration s)
    = while_running w fuel end_time duration (without_goal s).
Proof.
  induction fuel as [|fuel IH]; intros s Hg; [reflexivity|].
  cbn [while_running]. unfold bind at 1 3.
  rewrite <- loop_test_zero_goal.
  destruct (loop_keeps_goal w end_time duration s) as [_ Ht]. unfold wp in Ht.
  destruct (loop_test w s) as [go s1| |]; [| destruct Ht | destruct Ht].
  cbn [map_state]. rewrite Hg in Ht. destruct go; [|reflexivity].
  unfold bind. rewrite <- (loop_body_zero_goal w end_time duration s1 Ht).
  destruct (loop_keeps_goal w end_time duration s1) as [Hb _]. unfold wp in Hb.
  destruct (loop_body w end_time duration s1) as [b s2|e s2|];
    cbn [map_state]; [| reflexivity | reflexivity].
  rewrite Ht in Hb. destruct b as [exit|]; [reflexivity | exact (IH s2 Hb)].
Qed.

Lemma while_running_keeps_goal w end_time duration fuel s s' :
  final_state (while_running w fuel end_time duration s) = Some s' ->
  total_taps (self s') = total_taps (self s).
Proof.
  intros Hfin.
  exact (config_total_taps _ _
           (wlp_final_state _ _ _ _
              (while_running_config w end_time duration fuel s) Hfin)).
Qed.

(** X7: a goal of 0 is no goal.  [total_taps] is only ever tested for truth
    before it is used, so with [total_taps = 0] a run of [start] is, event
    for event and in every world, the run of the same object with
    [total_taps = None]: the loop never ends through the goal, no estimate
    and no progress are printed, and the final objects differ in
    [total_taps] only. *)
Theorem zero_goal_is_no_goal w fuel duration s :
  total_taps (self s) = Some 0 ->
  map_state without_goal (start w fuel duration s)
  = start w fuel duration (without_goal s).
Proof.
  intros Hg. destruct (connected w) eqn:Hconn.
  2:{ unfold start, check_adb_connection. unfold connected in Hconn.
      destruct (adb_devices w) as [result|];
        [destruct (no_device_listed result); [|discriminate Hconn]|];
        destruct s as [[] []]; reflexivity. }
  rewrite !(start_connected w fuel duration _ Hconn).
  assert (started w duration (without_goal s)
          = without_goal (started w duration s)) as ->.
  { destruct s as [[x0 y0 iv j mt tot run cnt st plan idx sw sh]
                     [nwm ntap nclk nrand nloop tr]].
    proj_simpl. subst tot. reflexivity. }
  assert (total_taps (self (started w duration s)) = Some 0) as Hg0
    by (destruct s as [[] []]; exact Hg).
  change (clock_reads (proc (without_goal s))) with (clock_reads (proc s)).
  pose proof (while_running_zero_goal w
                (deadline w duration (clock_reads (proc s))) duration fuel
                (started w duration s) Hg0) as Hsim.
  pose proof (while_running_keeps_goal w
                (deadline w duration (clock_reads (proc s))) duration fuel
                (started w duration s)) as Hkeep.
  unfold finally, bind, ret, raise. rewrite <- Hsim.
  destruct (while_running w fuel _ duration (started w duration s))
    as [exit s2|e s2|]; cbn [map_state]; [| |reflexivity].
  - specialize (Hkeep s2 eq_refl). rewrite Hg0 in Hkeep.
    rewrite <- (session_summary_zero_goal w s2 Hkeep).
    destruct (session_summary w s2); reflexivity.
  - specialize (Hkeep s2 eq_refl). rewrite Hg0 in Hkeep.
    rewrite <- (session_summary_zero_goal w s2 Hkeep).
    destruct (session_summary w s2); reflexivity.
Qed.

Lemma zero_goal_is_no_goal_witness :
  map_state without_goal
    (start (world_with_sigint (fun k => (0 <? k)%nat) demo_world) 2 None
       (goal_tapper 0))
  = start (world_with_sigint (fun k => (0 <? k)%nat) demo_world) 2 None
      (without_goal (goal_tapper 0)).
Proof.
  exact (zero_goal_is_no_goal
           (world_with_sigint (fun k => (0 <? k)%nat) demo_world) 2 None
           (goal_tapper 0) eq_refl).
Defined.

(** ** The device check, the status line, the order of the plan *)

Lemma str_count_app c s1 s2 :
  str_count c (s1 +:+ s2) = str_count c s1 + str_count c s2.
Proof.
  induction s1 as [|c1 s1 IH]; [reflexivity|].
  change (String c1 s1 +:+ s2) with (String c1 (s1 +:+ s2)).
  cbn [str_count]. rewrite IH. lia.
Qed.

(** X8: the device check passes on the bare header.  The test of
    [check_adb_connection] looks for the text "device" and for more than one
    newline; the header line "List of devices attached" contains that text,
    so every answer made of the header and of at least two newlines passes,
    whether it lists a device or not: the check returns True, prints
    nothing and changes nothing.  The answer of [adb devices] when no device
    is attached, the header and an empty line, is such an answer. *)
Theorem device_check_accepts_the_bare_header w rest s :
  1 < str_count newline rest ->
  connected
    (world_with_devices (Some ("List of devices attached" +:+ rest)) w) = true
  /\ check_adb_connection
       (world_with_devices (Some ("List of devices attached" +:+ rest)) w) s
     = Ok true s.
Proof.
  intros Hn.
  assert (connected
            (world_with_devices (Some ("List of devices attached" +:+ rest)) w)
          = true) as Hconn.
  { unfold connected, world_with_devices, no_device_listed. cbn [adb_devices].
    rewrite str_count_app.
    replace (str_in "device" ("List of devices attached" +:+ rest))
      with true by (cbv [String.append]; cbn; reflexivity).
    cbn [negb orb].
    replace (str_count newline "List of devices attached") with 0
      by reflexivity.
    apply negb_true_iff, Z.leb_gt. lia. }
  split; [exact Hconn | apply check_adb_connection_connected, Hconn].
Qed.

Lemma device_check_accepts_the_bare_header_witness :
  check_adb_connection
    (world_with_devices (Some (devices_output [])) demo_world)
    (goal_tapper 1)
  = Ok true (goal_tapper 1).
Proof.
  exact (proj2 (device_check_accepts_the_bare_header demo_world
                  (String newline (String newline "")) (goal_tapper 1)
                  eq_refl)).
Defined.



Lemma cycles_config w end_time duration k :
  forall s s1,
    cycles w k end_time duration s = Ok tt s1 ->
    config (self s1) = config (self s).
Proof.
  induction k as [|k IH]; intros s s1 Hrun; cbn [cycles] in Hrun.
  - injection Hrun as <-. reflexivity.
  - unfold bind in Hrun.
    pose proof (loop_body_effect w end_time duration s) as Hb. unfold wp in Hb.
    destruct (loop_body w end_time duration s) as [b s0| |]; try discriminate.
    destruct Hb as ((Hf & _) & _).
    rewrite (IH s0 s1 Hrun). exact (frame_config _ _ Hf).
Qed.

Lemma odd_step_reaches (i n t : nat) :
  Nat.odd n = true -> (t < n)%nat ->
  exists k, (k < n)%nat /\ ((i + 2 * k + 1) `mod` n)%nat = t.
Proof.
  intros Hodd Ht. apply Nat.odd_spec in Hodd as [m Hm].
  pose proof (Nat.div_mod (i + 1) n ltac:(lia)) as Hdiv.
  pose proof (Nat.mod_upper_bound (i + 1) n ltac:(lia)) as Ha.
  set (a := ((i + 1) `mod` n)%nat) in *. set (c := ((i + 1) `div` n)%nat) in *.
  assert (forall q r, (r < n)%nat -> ((n * q + r) `mod` n)%nat = r) as Hmod.
  { intros q r Hr. rewrite Nat.add_comm, Nat.mul_comm, Nat.Div0.mod_add.
    apply Nat.mod_small, Hr. }
  assert (exists d, (d < n)%nat
                    /\ (a + d = t \/ a + d = t + n)%nat) as (d & Hd & Had).
  { destruct (le_lt_dec a t).
    - exists (t - a)%nat. split; [lia | left; lia].
    - exists (t + n - a)%nat. split; [lia | right; lia]. }
  destruct (Nat.Even_or_Odd d) as [[k Hk] | [k Hk]].
  - exists k. split; [lia|].
    destruct Had as [Had | Had].
    + replace (i + 2 * k + 1)%nat with (n * c + t)%nat by lia.
      apply Hmod, Ht.
    + replace (i + 2 * k + 1)%nat with (n * (c + 1) + t)%nat by lia.
      apply Hmod, Ht.
  - exists (k + m + 1)%nat. split; [lia|].
    destruct Had as [Had | Had].
    + replace (i + 2 * (k + m + 1) + 1)%nat with (n * (c + 1) + t)%nat by lia.
      apply Hmod, Ht.
    + replace (i + 2 * (k + m + 1) + 1)%nat with (n * (c + 2) + t)%nat by lia.
      apply Hmod, Ht.
Qed.

(** X10: the order in which a run visits its plan.  In multi-tap mode, with
    a plan of [n] points and the cursor at [i], after [k] cycles the next
    cycle taps the entry number [(i + 2k + 1) mod n], within the jitter, and
    then pauses for the interval of the entry number [(i + 2k) mod n]: a
    cycle moves the cursor by two.  When [n] is odd, as for the plan of 9
    points that the constructor builds, every entry is the one tapped in one
    of any [n] cycles in a row. *)
Theorem cycles_visit_the_plan w end_time duration k s s1 :
  multi_tap (self s) = true ->
  (current_location_index (self s) < length (tap_locations (self s)))%nat ->
  0 <= jitter (self s) ->
  cycles w k end_time duration s = Ok tt s1 ->
  let plan := tap_locations (self s) in
  let n := length plan in
  let i := current_location_index (self s) in
  (exists p q s2 jx jy rest,
      plan !! ((i + 2 * k) `mod` n)%nat = Some p
      /\ plan !! ((i + 2 * k + 1) `mod` n)%nat = Some q
      /\ final_state (loop_body w end_time duration s1) = Some s2
      /\ trace (proc s2)
         = trace (proc s1)
             ++ Tap jx jy (input_tap w (tap_calls (proc s1))) :: rest
      /\ q.1.1 - jitter (self s) <= jx <= q.1.1 + jitter (self s)
      /\ q.1.2 - jitter (self s) <= jy <= q.1.2 + jitter (self s)
      /\ (forall u, loop_body w end_time duration s1 = Ok u s2 ->
            In (Sleep p.2) rest))
  /\ (Nat.odd n = true ->
      forall t, (t < n)%nat ->
        exists k', (k' < n)%nat /\ ((i + 2 * k' + 1) `mod` n)%nat = t).
Proof.
  intros Hm Hi Hj Hrun plan n i.
  split; [|intros Ho t Ht; apply odd_step_reaches; assumption].
  assert (tap_locations (self s) <> []) as Hne
    by (intros E; rewrite E in Hi; cbn in Hi; lia).
  pose proof (cycles_index w end_time duration k s s1 Hm Hne Hi Hrun) as Hidx.
  pose proof (cycles_config w end_time duration k s s1 Hrun) as Hc.
  destruct (config_fields _ _ Hc) as (_ & _ & _ & Ej & Em & _ & El).
  fold plan n i in Hidx.
  assert (n <> 0)%nat as Hn by (unfold n, plan; lia).
  destruct (lookup_lt_is_Some_2 plan ((i + 2 * k) `mod` n)%nat
              (Nat.mod_upper_bound _ _ Hn)) as [p Hp].
  destruct (lookup_lt_is_Some_2 plan ((i + 2 * k + 1) `mod` n)%nat
              (Nat.mod_upper_bound _ _ Hn)) as [q Hq].
  pose proof (loop_body_pacing w end_time duration s1 p q) as H.
  rewrite Em, El, Hidx, Ej in H. fold plan n in H.
  rewrite Nat.Div0.add_mod_idemp_l in H.
  specialize (H Hm Hp Hq Hj). unfold wp in H.
  destruct (loop_body w end_time duration s1) as [u s2|e s2|]; [| |destruct H].
  - destruct H as (jx & jy & rest & Htr & Hx & Hy & Hs).
    exists p, q, s2, jx, jy, rest.
    repeat (split; [first [assumption | reflexivity]|]). intros; assumption.
  - destruct H as (jx & jy & rest & Htr & Hx & Hy & Hs).
    exists p, q, s2, jx, jy, rest.
    repeat (split; [first [assumption | reflexivity]|]). discriminate.
Qed.

Lemma cycles_visit_the_plan_witness :
  exists k', (k' < 9)%nat /\ ((0 + 2 * k' + 1) `mod` 9)%nat = 4%nat.
Proof.
  destruct (cycles_visit_the_plan demo_world None None 0
              (mkSys (constructed None None 0.008%float 8 true None
                        1080 1920) boot)
              _ eq_refl ltac:(cbn; lia) ltac:(cbn; lia) eq_refl) as [_ H].
  apply (H eq_refl 4%nat). cbn. lia.
Defined.

(** ** The planner and the constructor *)










(** ** The exit through [sys.exit] *)

Lemma init_outcome w x0 y0 interval j multi total p :
  (exists s0,
      __init__ w x0 y0 interval j multi total p = Ok tt s0
      /\ sound (self s0)
      /\ ~ ((x0 = None \/ y0 = None) /\ wm_size w (wm_calls p) = None))
  \/ (exists s,
        __init__ w x0 y0 interval j multi total p = Raise (SystemExit 1) s
        /\ (x0 = None \/ y0 = None)
        /\ wm_size w (wm_calls p) = None
        /\ tap_calls (proc s) = tap_calls p
        /\ trace (proc s)
           = trace p ++ [Print MsgResolutionError; Print MsgConnectDeviceFirst]).
Proof.
  assert (x0 = None \/ y0 = None \/ exists px py, x0 = Some px /\ y0 = Some py)
    as [Hx | [Hy | (px & py & -> & ->)]]
    by (destruct x0, y0; eauto 6).
  3:{ left. eexists. split; [apply init_with_coordinates|].
      split; [unfold sound; cbn; eauto|].
      intros [[H | H] _]; discriminate H. }
  all: destruct (wm_size w (wm_calls p)) as [[width height]|] eqn:Hwm.
  all: try (destruct (init_with_device w x0 y0 interval j multi total p
                        width height ltac:(auto) Hwm) as (p' & Hinit & _);
            left; eexists; split; [exact Hinit|];
            split; [exact (init_sound _ _ _ _ _ _ _ _ _ Hinit)|];
            intros [_ H]; discriminate H).
  all: destruct (init_without_device w x0 y0 interval j multi total p
                   ltac:(auto) Hwm) as (s & Hinit & _ & Htc & Htr);
    right; exists s; auto 10.
Qed.

Lemma start_raises_no_exit w fuel duration s0 code s :
  sound (self s0) -> start w fuel duration s0 <> Raise (SystemExit code) s.
Proof.
  intros Hs Heq. pose proof (start_sound w fuel duration s0 Hs) as H.
  unfold wlp in H. rewrite Heq in H. destruct H as [_ H]. discriminate H.
Qed.

(** X14: when the process leaves through [sys.exit].  [main] exits through
    [sys.exit] exactly when a coordinate is missing on the command line and
    every resolution query that it makes fails: the query of the constructor
    and, before it, the query of the calibration, which is made when neither
    coordinate is given or both are 0.  The code is then 1, no tap was sent,
    and the last two lines printed are the error and the advice to connect
    the device.  No other path of [main] calls [sys.exit]. *)
Theorem exit_through_sys_exit w fuel args :
  args_karaa args = true ->
  let missing :=
    (args_x args = None \/ args_y args = None)
    /\ wm_size w 0 = None
    /\ (truthy (args_x args) = false -> truthy (args_y args) = false ->
        wm_size w 1 = None) in
  (missing ->
   exists s pre,
     main w fuel args = Raise (SystemExit 1) s
     /\ tap_calls (proc s) = 0%nat
     /\ trace (proc s)
        = pre ++ [Print MsgResolutionError; Print MsgConnectDeviceFirst])
  /\ (forall code s,
        main w fuel args = Raise (SystemExit code) s -> code = 1 /\ missing).
Proof.
  intros Hk missing. unfold main, calibrate. rewrite Hk. cbn [andb].
  destruct (truthy (args_x args)) eqn:Htx, (truthy (args_y args)) eqn:Hty;
    cbn [negb andb].
  1-3: destruct (init_outcome w (args_x args) (args_y args)
                   (args_interval args) (args_jitter args)
                   (negb (args_single_point args)) (args_total_taps args) boot)
      as [(s0 & -> & Hs & Hno) | (s & -> & Hxy & Hwm & Htc & Htr)];
    (split;
     [ intros (Hxy' & Hwm' & _);
       first [ exfalso; apply Hno; split; assumption
             | exists s, (trace boot); auto ]
     | intros code s' Heq;
       first [ exfalso; exact (start_raises_no_exit _ _ _ _ _ _ Hs Heq)
             | injection Heq as <- <-;
               split; [reflexivity|];
               split; [exact Hxy|]; split; [exact Hwm|];
               intros; discriminate ] ]).
  cbn [wm_calls boot].
  destruct (wm_size w 0) as [[width height]|] eqn:Hwm0.
  - rewrite init_with_coordinates. split.
    + intros (_ & H & _). discriminate H.
    + intros code s' Heq. exfalso.
      refine (start_raises_no_exit _ _ _ _ _ _ _ Heq). unfold sound. cbn. eauto.
  - destruct (init_outcome w (args_x args) (args_y args)
                (args_interval args) (args_jitter args)
                (negb (args_single_point args)) (args_total_taps args)
                (mkProc 1 (tap_calls boot) (clock_reads boot)
                   (rand_draws boot) (loop_tests boot)
                   (trace boot
                      ++ [Print MsgResolutionError;
                          Print MsgUsingDefaultCoordinates])))
      as [(s0 & -> & Hs & Hno) | (s & -> & Hxy & Hwm & Htc & Htr)];
      cbn [wm_calls] in *.
    + split.
      * intros (Hxy' & _ & Hwm'). exfalso. apply Hno. auto.
      * intros code s' Heq. exfalso.
        exact (start_raises_no_exit _ _ _ _ _ _ Hs Heq).
    + split.
      * intros _. eexists s, _. split; [reflexivity|]. split; [exact Htc|].
        exact Htr.
      * intros code s' Heq. injection Heq as <- <-. split; [reflexivity|].
        split; [exact Hxy|]. split; [reflexivity|]. intros _ _. exact Hwm.
Qed.

Lemma exit_through_sys_exit_witness :
  exists s,
    main (world_with_wm_size (fun _ => None) demo_world) 1 default_args
    = Raise (SystemExit 1) s.
Proof.
  destruct (proj1 (exit_through_sys_exit
                     (world_with_wm_size (fun _ => None) demo_world) 1
                     default_args eq_refl))
    as (s & pre & Hrun & _).
  - split; [left; reflexivity|]. split; [reflexivity|]. intros _ _. reflexivity.
  - exists s. exact Hrun.
Defined.

(** ** Reading the resolution *)

Lemma str_app_assoc a b c : (a +:+ b) +:+ c = a +:+ b +:+ c.
Proof.
  induction a as [|x a IH]; [reflexivity|].
  change (String x (a +:+ b) +:+ c = String x (a +:+ b +:+ c)).
  change (String x ((a +:+ b) +:+ c) = String x (a +:+ b +:+ c)).
  rewrite IH. reflexivity.
Qed.

Lemma str_app_nil_r a : a +:+ "" = a.
Proof.
  induction a as [|x a IH]; [reflexivity|].
  change (String x (a +:+ "") = String x a). rewrite IH. reflexivity.
Qed.

Lemma str_length_app a b :
  String.length (a +:+ b) = (String.length a + String.length b)%nat.
Proof.
  induction a as [|x a IH]; [reflexivity|].
  change (S (String.length (a +:+ b)) = S (String.length a + String.length b)).
  rewrite IH. reflexivity.
Qed.

Lemma str_all_app p a b : str_all p (a +:+ b) = str_all p a && str_all p b.
Proof.
  induction a as [|x a IH]; [reflexivity|].
  change (p x && str_all p (a +:+ b) = p x && str_all p a && str_all p b).
  rewrite IH, andb_assoc. reflexivity.
Qed.

Lemma str_all_weaken (p q : ascii -> bool) s :
  (forall c, p c = true -> q c = true) ->
  str_all p s = true -> str_all q s = true.
Proof.
  intros Hpq. induction s as [|x s IH]; [reflexivity|]. cbn.
  intros H. apply andb_true_iff in H as [Hx Hs].
  rewrite (Hpq x Hx), (IH Hs). reflexivity.
Qed.

Lemma str_all_count p c s :
  str_all p s = true -> p c = false -> str_count c s = 0.
Proof.
  intros Hs Hc. induction s as [|x s IH]; [reflexivity|]. cbn in Hs |- *.
  apply andb_true_iff in Hs as [Hx Hs]. rewrite (IH Hs).
  destruct (Ascii.eqb_spec c x) as [->|_]; [congruence | reflexivity].
Qed.

Lemma pretty_N_char_digit d :
  (d < 10)%N -> digit_of (pretty_N_char d) = Some (Z.of_N d).
Proof.
  intros Hd.
  assert (d = 0 \/ d = 1 \/ d = 2 \/ d = 3 \/ d = 4 \/ d = 5 \/ d = 6
          \/ d = 7 \/ d = 8 \/ d = 9)%N as H by lia.
  repeat (destruct H as [-> | H]; [reflexivity|]). subst d. reflexivity.
Qed.

(** The digits that [pretty] writes for a number, and their value. *)
Lemma pretty_N_go_digits x :
  exists ds,
    (forall s, pretty_N_go x s = ds +:+ s)
    /\ str_all digit_char ds = true
    /\ ((0 < x)%N -> ds <> "")
    /\ forall b acc r,
        digits_value b acc (ds +:+ r)
        = digits_value (b || (0 <? x)%N)
            (acc * 10 ^ Z.of_nat (String.length ds) + Z.of_N x) r.
Proof.
  induction (N.lt_wf_0 x) as [x _ IH].
  destruct (N.eq_dec x 0%N) as [-> | Hx].
  - exists "". split; [intros s; apply pretty_N_go_0|].
    split; [reflexivity|]. split; [lia|]. intros b acc r.
    change ("" +:+ r) with r. rewrite orb_false_r. f_equal. cbn. lia.
  - assert (0 < x)%N as Hpos by lia.
    destruct (IH (x `div` 10)%N ltac:(apply N.div_lt; lia))
      as (ds & Hgo & Hall & _ & Hval).
    pose proof (pretty_N_char_digit (x `mod` 10)%N
                  ltac:(apply N.mod_lt; lia)) as Hc.
    set (c := pretty_N_char (x `mod` 10)%N) in *.
    exists (ds +:+ String c "").
    split; [|split; [|split]].
    + intros s. rewrite (pretty_N_go_step x s Hpos), Hgo, str_app_assoc.
      reflexivity.
    + rewrite str_all_app, Hall. unfold str_all, digit_char. rewrite Hc.
      reflexivity.
    + intros _. destruct ds; discriminate.
    + intros b acc r. rewrite str_app_assoc.
      change (String c "" +:+ r) with (String c r).
      rewrite Hval. cbn [digits_value]. rewrite Hc.
      assert ((0 <? x)%N = true) as -> by (apply N.ltb_lt; exact Hpos).
      rewrite orb_true_r, str_length_app. cbn [String.length].
      rewrite Nat2Z.inj_add, Z.pow_add_r by lia. f_equal.
      change (10 ^ Z.of_nat 1) with 10.
      pose proof (N.div_mod x 10 ltac:(lia)) as Hdm.
      lia.
Qed.

Lemma pretty_Z_shape (z : Z) :
  exists ds,
    str_all digit_char ds = true /\ ds <> ""
    /\ pretty z = (if z <? 0 then "-" +:+ ds else ds)
    /\ forall r,
        digits_value false 0 (ds +:+ r) = digits_value true (Z.abs z) r.
Proof.
  assert (forall p : positive,
            exists ds,
              str_all digit_char ds = true /\ ds <> ""
              /\ pretty p = ds
              /\ forall r,
                  digits_value false 0 (ds +:+ r)
                  = digits_value true (Z.pos p) r) as Hpos.
  { intros p. destruct (pretty_N_go_digits (N.pos p))
      as (ds & Hgo & Hall & Hne & Hval).
    exists ds. split; [exact Hall|]. split; [apply Hne; lia|]. split.
    - unfold pretty, pretty_positive, pretty, pretty_N.
      destruct (decide (N.pos p = 0%N)) as [H|_]; [discriminate H|].
      rewrite Hgo. apply str_app_nil_r.
    - intros r. rewrite Hval. reflexivity. }
  destruct z as [|p|p].
  - exists "0". repeat split; discriminate.
  - destruct (Hpos p) as (ds & Hall & Hne & Hp & Hval).
    exists ds. repeat split; assumption.
  - destruct (Hpos p) as (ds & Hall & Hne & Hp & Hval).
    exists ds. split; [exact Hall|]. split; [exact Hne|]. split.
    + unfold pretty at 1, pretty_Z. rewrite Hp. reflexivity.
    + exact Hval.
Qed.

Lemma digit_char_facts c :
  digit_char c = true ->
  isspace c = false /\ c <> "+"%char /\ c <> "-"%char
  /\ c <> "x"%char /\ c <> ":"%char.
Proof.
  destruct c as [[] [] [] [] [] [] [] []]; intros H;
    try discriminate H; repeat split; discriminate.
Qed.

Lemma numeral_char_facts c :
  numeral_char c = true ->
  isspace c = false /\ c <> "x"%char /\ c <> ":"%char.
Proof.
  destruct c as [[] [] [] [] [] [] [] []]; intros H;
    try discriminate H; repeat split; discriminate.
Qed.

Lemma rstrip_spaces b : str_all isspace b = true -> rstrip b = "".
Proof.
  induction b as [|c b IH]; [reflexivity|]. cbn. intros H.
  apply andb_true_iff in H as [Hc Hb]. rewrite (IH Hb), Hc. reflexivity.
Qed.

Lemma rstrip_app_spaces a b :
  str_all isspace b = true -> rstrip (a +:+ b) = rstrip a.
Proof.
  intros Hb. induction a as [|c a IH]; [apply rstrip_spaces, Hb|].
  change (String c a +:+ b) with (String c (a +:+ b)). cbn [rstrip].
  rewrite IH. reflexivity.
Qed.

Lemma rstrip_app a b : rstrip b <> "" -> rstrip (a +:+ b) = a +:+ rstrip b.
Proof.
  intros Hb. induction a as [|c a IH]; [reflexivity|].
  change (String c a +:+ b) with (String c (a +:+ b)).
  change (String c a +:+ rstrip b) with (String c (a +:+ rstrip b)).
  cbn [rstrip].
  rewrite IH. destruct (a +:+ rstrip b) eqn:E; [|reflexivity].
  destruct a; [|discriminate E]. contradiction.
Qed.

Lemma rstrip_word s :
  str_all (fun c => negb (isspace c)) s = true -> rstrip s = s.
Proof.
  induction s as [|c s IH]; [reflexivity|]. cbn. intros H.
  apply andb_true_iff in H as [Hc Hs]. rewrite (IH Hs).
  apply negb_true_iff in Hc. rewrite Hc. destruct s; reflexivity.
Qed.

Lemma digits_nonspace ds :
  str_all digit_char ds = true ->
  str_all (fun c => negb (isspace c)) ds = true.
Proof.
  apply str_all_weaken. intros c Hc.
  destruct (digit_char_facts c Hc) as [-> _]. reflexivity.
Qed.

(** A numeral followed by [tail]: what [int] makes of it when nothing is
    stripped from it. *)
Lemma py_int_pretty_tail (z : Z) tail :
  rstrip tail = tail ->
  py_int (pretty z +:+ tail)
  = (if z <? 0 then option_map Z.opp (digits_value true (Z.abs z) tail)
     else digits_value true (Z.abs z) tail).
Proof.
  intros Htail.
  destruct (pretty_Z_shape z) as (ds & Hall & Hne & Hp & Hval).
  assert (rstrip (ds +:+ tail) = ds +:+ tail) as Hr.
  { destruct tail as [|c tail].
    - rewrite str_app_nil_r. apply rstrip_word, digits_nonspace, Hall.
    - rewrite rstrip_app; rewrite Htail; [reflexivity | discriminate]. }
  destruct ds as [|c ds]; [contradiction|].
  cbn [str_all] in Hall. apply andb_true_iff in Hall as [Hc Hds].
  destruct (digit_char_facts c Hc) as (Hsp & Hplus & Hminus & _).
  rewrite Hp. unfold py_int, strip. destruct (z <? 0).
  - change (("-" +:+ String c ds) +:+ tail)
      with (String "-" (String c ds +:+ tail)).
    cbn [lstrip]. change (isspace "-") with false. cbv iota.
    assert (rstrip (String "-" (String c ds +:+ tail))
            = String "-" (String c ds +:+ tail)) as ->.
    { cbn [rstrip]. rewrite Hr.
      change (String c ds +:+ tail) with (String c (ds +:+ tail)).
      reflexivity. }
    rewrite Hval. reflexivity.
  - change (String c ds +:+ tail) with (String c (ds +:+ tail)) in Hr |- *.
    cbn [lstrip]. rewrite Hsp, Hr.
    change (String c (ds +:+ tail)) with (String c ds +:+ tail).
    rewrite <- Hval.
    change (String c ds +:+ tail) with (String c (ds +:+ tail)).
    destruct c as [[] [] [] [] [] [] [] []];
      try discriminate Hc; reflexivity.
Qed.

Lemma py_int_pretty (z : Z) : py_int (pretty z) = Some z.
Proof.
  rewrite <- (str_app_nil_r (pretty z)), (py_int_pretty_tail z "" eq_refl).
  cbn [digits_value]. destruct (Z.ltb_spec z 0); cbn; f_equal; lia.
Qed.

(** ** Splitting *)

Lemma prefix_head c0 sep c s :
  String.prefix (String c0 sep) (String c s) = true -> c0 = c.
Proof. cbn. destruct (ascii_dec c0 c); [auto | discriminate]. Qed.

Lemma prefix_app sep r : String.prefix sep (sep +:+ r) = true.
Proof.
  induction sep as [|c sep IH]; [destruct r; reflexivity|].
  change (String c sep +:+ r) with (String c (sep +:+ r)). cbn.
  destruct (ascii_dec c c); [exact IH | contradiction].
Qed.

Lemma split_skip sep t r :
  split_go sep (String.length t) (t +:+ r) = split_go sep 0 r.
Proof.
  induction t as [|c t IH]; [reflexivity|].
  change (String c t +:+ r) with (String c (t +:+ r)). exact IH.
Qed.

Lemma count_head c0 c s :
  str_count c0 (String c s) = 0 -> c0 <> c /\ str_count c0 s = 0.
Proof.
  cbn. assert (0 <= str_count c0 s)
    by (induction s as [|x s IH]; cbn;
        [lia | destruct (Ascii.eqb c0 x); lia]).
  destruct (Ascii.eqb_spec c0 c); [lia|]. split; [assumption | lia].
Qed.

(** A text without the first character of the separator is one field. *)
Lemma split_free c0 sep s :
  str_count c0 s = 0 -> split_go (String c0 sep) 0 s = [s].
Proof.
  induction s as [|c s IH]; [reflexivity|]. intros H.
  apply count_head in H as [Hc Hs]. cbn [split_go].
  destruct (String.prefix (String c0 sep) (String c s)) eqn:Hp.
  - apply prefix_head in Hp. contradiction.
  - rewrite (IH Hs). reflexivity.
Qed.

(** The first field ends at the first occurrence of the separator. *)
Lemma split_free_app c0 sep a r :
  str_count c0 a = 0 ->
  split_go (String c0 sep) 0 (a +:+ String c0 sep +:+ r)
  = a :: split_go (String c0 sep) 0 r.
Proof.
  induction a as [|c a IH]; intros H.
  - change ("" +:+ String c0 sep +:+ r) with (String c0 (sep +:+ r)).
    cbn [split_go].
    change (String c0 (sep +:+ r)) with (String c0 sep +:+ r) at 1.
    rewrite prefix_app.
    replace (String.length (String c0 sep) - 1)%nat with (String.length sep)
      by (cbn; lia).
    rewrite split_skip. reflexivity.
  - apply count_head in H as [Hc Hs].
    change (String c a +:+ String c0 sep +:+ r)
      with (String c (a +:+ String c0 sep +:+ r)).
    cbn [split_go].
    destruct (String.prefix (String c0 sep)
                (String c (a +:+ String c0 sep +:+ r))) eqn:Hp.
    + apply prefix_head in Hp. contradiction.
    + rewrite (IH Hs). reflexivity.
Qed.

Lemma pretty_free (z : Z) c :
  numeral_char c = false -> str_count c (pretty z) = 0.
Proof.
  intros Hc. apply (str_all_count numeral_char); [|exact Hc].
  destruct (pretty_Z_shape z) as (ds & Hall & _ & -> & _).
  assert (str_all numeral_char ds = true) as Hds.
  { revert Hall. apply str_all_weaken. intros x Hx. unfold numeral_char.
    rewrite Hx. reflexivity. }
  destruct (z <? 0); [|exact Hds].
  change ("-" +:+ ds) with (String "-" ds). cbn [str_all]. rewrite Hds.
  reflexivity.
Qed.

Lemma lstrip_spaces a s : str_all isspace a = true -> lstrip (a +:+ s) = lstrip s.
Proof.
  induction a as [|c a IH]; [reflexivity|]. cbn [str_all]. intros H.
  apply andb_true_iff in H as [Hc Ha].
  change (String c a +:+ s) with (String c (a +:+ s)). cbn [lstrip].
  rewrite Hc. exact (IH Ha).
Qed.

Lemma split_absent sep s :
  str_in sep s = false -> split_go sep 0 s = [s].
Proof.
  induction s as [|c s IH]; [reflexivity|]. cbn [str_in split_go]. intros H.
  apply orb_false_iff in H as [Hp Hs]. rewrite Hp, (IH Hs). reflexivity.
Qed.

Lemma size_fields (width height : Z) tail :
  str_count "x" tail = 0 ->
  str_split "x" (pretty width +:+ "x" +:+ pretty height +:+ tail)
  = [pretty width; pretty height +:+ tail].
Proof.
  intros Htail. unfold str_split.
  rewrite (split_free_app "x" "" (pretty width)) by (apply pretty_free; reflexivity).
  rewrite split_free; [reflexivity|].
  rewrite str_count_app, Htail, pretty_free by reflexivity. reflexivity.
Qed.

Lemma rstrip_step a b b' :
  rstrip b = b' /\ b' <> "" ->
  rstrip (a +:+ b) = a +:+ b' /\ a +:+ b' <> "".
Proof.
  intros [Hb Hne]. split.
  - rewrite rstrip_app; rewrite Hb; [reflexivity | exact Hne].
  - destruct a; [exact Hne | discriminate].
Qed.

Lemma rstrip_pretty (z : Z) : rstrip (pretty z) = pretty z /\ pretty z <> "".
Proof.
  destruct (pretty_Z_shape z) as (ds & Hall & Hne & -> & _).
  assert (rstrip ds = ds /\ ds <> "") as Hds
    by (split; [apply rstrip_word, digits_nonspace, Hall | exact Hne]).
  destruct (z <? 0); [apply rstrip_step, Hds | exact Hds].
Qed.

Lemma strip_size (width height : Z) lead trail :
  str_all isspace lead = true -> str_all isspace trail = true ->
  strip (lead +:+ "Physical size: " +:+ pretty width +:+ "x"
           +:+ pretty height +:+ trail)
  = "Physical size: " +:+ pretty width +:+ "x" +:+ pretty height.
Proof.
  intros Hl Ht. unfold strip. rewrite (lstrip_spaces lead _ Hl).
  change (lstrip ("Physical size: " +:+ ?s)) with ("Physical size: " +:+ s).
  rewrite <- (str_app_assoc "x"), <- (str_app_assoc (pretty width)),
    <- (str_app_assoc "Physical size: ").
  rewrite (rstrip_app_spaces _ trail Ht).
  eapply proj1. do 3 apply rstrip_step. apply rstrip_pretty.
Qed.

(** X15: reading the resolution.  For the text that [adb shell wm size]
    prints for a screen of [width] by [height], "Physical size: " followed
    by the two numbers around an "x", with any white space before and after
    it, the two lines that read the resolution give back [width] and
    [height]: the text is stripped, the field after the first ": " is cut at
    the "x", and [int] reads back each number that [str] writes. *)
Theorem parse_resolution_reads_the_size (width height : Z) lead trail :
  str_all isspace lead = true -> str_all isspace trail = true ->
  parse_resolution
    (lead +:+ "Physical size: " +:+ pretty width +:+ "x" +:+ pretty height
       +:+ trail)
  = inr (width, height)
  /\ py_int (pretty width) = Some width.
Proof.
  intros Hl Ht. split; [|apply py_int_pretty].
  unfold parse_resolution. rewrite (strip_size width height lead trail Hl Ht).
  unfold str_split.
  change ("Physical size: " +:+ ?s) with ("Physical size" +:+ ": " +:+ s).
  rewrite (split_free_app ":" " " "Physical size") by reflexivity.
  rewrite split_free
    by (rewrite !str_count_app, !pretty_free by reflexivity; reflexivity).
  rewrite <- (str_app_nil_r (pretty height)) at 1.
  fold (str_split "x" (pretty width +:+ "x" +:+ pretty height +:+ "")).
  rewrite size_fields by reflexivity.
  rewrite str_app_nil_r, !py_int_pretty. reflexivity.
Qed.

Lemma parse_resolution_reads_the_size_witness :
  parse_resolution (wm_size_output 1080 1920) = inr (1080, 1920).
Proof.
  exact (proj1 (parse_resolution_reads_the_size 1080 1920 ""
                  (String newline "") eq_refl eq_refl)).
Defined.

Lemma strip_size_override (width height width' height' : Z) :
  strip (wm_size_output_override width height width' height')
  = "Physical size: " +:+ pretty width +:+ "x" +:+ pretty height
      +:+ String newline "Override size: "
      +:+ pretty width' +:+ "x" +:+ pretty height'.
Proof.
  unfold strip, wm_size_output_override.
  change (lstrip ("Physical size: " +:+ ?s)) with ("Physical size: " +:+ s).
  eapply proj1. do 7 apply rstrip_step.
  rewrite (rstrip_app_spaces _ (String newline "") eq_refl).
  apply rstrip_pretty.
Qed.

(** X16: when the resolution cannot be read.  The two lines raise IndexError
    on every answer that, once stripped, has no ": " in it (the empty answer
    is one), and ValueError on the answer that [adb shell wm size] gives for
    a screen whose size has been overridden, "Physical size: WxH" followed
    by the line "Override size: W'xH'": the field between the first and the
    second ": " is then "WxH" followed by a newline and "Override size",
    whose second half is not a number. *)
Theorem parse_resolution_errors :
  (forall result,
     str_in ": " (strip result) = false ->
     parse_resolution result = inl IndexError)
  /\ (forall width height width' height' : Z,
        parse_resolution
          (wm_size_output_override width height width' height')
        = inl ValueError).
Proof.
  split.
  - intros result H. unfold parse_resolution, str_split.
    rewrite (split_absent _ _ H). reflexivity.
  - intros width height width' height'. unfold parse_resolution.
    rewrite strip_size_override. unfold str_split.
    change ("Physical size: " +:+ ?s) with ("Physical size" +:+ ": " +:+ s).
    rewrite (split_free_app ":" " " "Physical size") by reflexivity.
    change (String newline "Override size: " +:+ ?s)
      with (String newline "Override size" +:+ ": " +:+ s).
    rewrite <- (str_app_assoc (pretty height)
                  (String newline "Override size")),
      <- (str_app_assoc "x"), <- (str_app_assoc (pretty width)).
    rewrite (split_free_app ":" " ")
      by (rewrite !str_count_app, !pretty_free by reflexivity; reflexivity).
    cbv beta iota.
    fold (str_split "x"
            (pretty width +:+ "x" +:+ pretty height
               +:+ String newline "Override size")).
    rewrite size_fields by reflexivity.
    rewrite py_int_pretty, (py_int_pretty_tail height _ eq_refl).
    cbn [digits_value]. destruct (height <? 0); reflexivity.
Qed.

(** ** Runs that end by the time limit, and runs that do not end *)










(** X19: [running] after a run.  [start] sets [running] to True and nothing
    but the SIGINT handler sets it back: with a device attached and no
    SIGINT, the object that [start] leaves, whether the loop has ended
    through the goal, through the time limit or through an exception, still
    has [running] = True. *)
Theorem running_is_not_reset w fuel duration s s' :
  connected w = true ->
  (forall k, sigint w k = false) ->
  final_state (start w fuel duration s) = Some s' ->
  running (self s') = true.
Proof.
  intros Hconn Hsig Hfin.
  destruct (started_fields w duration s) as (Hst & _ & _ & _ & Hrun & _).
  assert (wlp (start w fuel duration)
            (fun _ s1 => running (self s1) = true)
            (fun _ s1 => running (self s1) = true) s) as Hwlp.
  { eapply wlp_conseq;
      [ apply (start_rule w fuel duration s
                 (fun s2 =>
                    running (self s2) = true
                    /\ start_time (self s2)
                       = Some (clock w (clock_reads (proc s))))
                 (fun _ s2 =>
                    running (self s2) = true
                    /\ start_time (self s2)
                       = Some (clock w (clock_reads (proc s)))) Hconn)
      | |]; cbv beta.
    - eapply wlp_conseq;
        [ apply (while_running_rule w _ duration
                   (fun s1 => running (self s1) = true)
                   (fun s1 s2 => start_time (self s2) = start_time (self s1))
                   (fun _ s1 s2 =>
                      running (self s2) = true
                      /\ start_time (self s2) = start_time (self s1)))
        | |]; cbv beta.
      + intros; congruence.
      + intros e s1 s2 s3 H12 [H3 H23]. split; [exact H3 | congruence].
      + intros s1 H1.
        eapply wp_conseq; [apply loop_test_spec | | intros ? ? []]; cbv beta.
        intros go s2 ((_ & Ht & _) & _ & Hr). rewrite Hsig, H1 in Hr. auto.
      + intros s1 H1.
        eapply wp_conseq; [apply loop_body_effect | |]; cbv beta.
        * intros b s2 ((Hf & _) & _).
          split; [|exact (frame_start_time _ _ Hf)].
          rewrite <- H1. exact (f_equal (fun c => c.1.1.1.2) Hf).
        * intros e s2 (Hf & _).
          split; [|exact (frame_start_time _ _ Hf)].
          rewrite <- H1. exact (f_equal (fun c => c.1.1.1.2) Hf).
      + exact Hrun.
      + intros _ s2 [H2 Ht]. split; [exact H2 | congruence].
      + intros e s2 [H2 Ht]. split; [exact H2 | congruence].
    - intros s2 [_ H]. exact H.
    - intros e s2 [_ H]. exact H.
    - intros _ s1 (s2 & [H _] & ->). exact H.
    - intros _ s1 (s2 & [H _] & ->). exact H. }
  exact (wlp_final_state _ _ _ _ Hwlp Hfin).
Qed.

Lemma running_is_not_reset_witness :
  exists s',
    final_state (start demo_world 1 None (goal_tapper 1)) = Some s'
    /\ running (self s') = true.
Proof.
  assert (exists s',
             final_state (start demo_world 1 None (goal_tapper 1)) = Some s')
    as [s' Hfin] by (vm_compute; eauto).
  exists s'. split; [exact Hfin|].
  exact (running_is_not_reset demo_world 1 None (goal_tapper 1) s'
           eq_refl (fun _ => eq_refl) Hfin).
Defined.
